(** * MindLockInstaApp: the WebView/camera bridge of [app.tsx]

    A shallow embedding of [src/MindLockWeb/MindLockInstaApp/app.tsx]:
    the React state of [App], the host-side message handler
    [handleWebViewMessage], the permission effect, the three-way render
    and the injected script: its [console.log] override, its
    [DOMContentLoaded] listener with the touch listeners it adds, and the
    [goToScreen] wrapper.  The style sheet is left out.

    JavaScript strings are sequences of UTF-16 code units; [JSON.parse],
    property access, strict equality, [Array.prototype.join] and
    [JSON.stringify] are the platform operations the source calls and are
    modelled after ECMA-262 as far as the source uses them. *)

From Stdlib Require Import List NArith ZArith String Ascii Bool Lia.
From Stdlib Require Import DecimalString.
Import ListNotations.

#[local] Set Warnings "-register-all".
Local Open Scope N_scope.

(** ** JavaScript strings *)

(** A string is its list of UTF-16 code units. *)
Definition jsstring : Type := list N.

(** The code units of an ASCII literal of the source. *)
Definition js (s : string) : jsstring :=
  map N_of_ascii (list_ascii_of_string s).

(** The same, with every apostrophe of the literal standing for a
    quotation mark: [jsq "{'a':1}"] is the text [{"a":1}]. *)
Definition jsq (s : string) : jsstring :=
  map (fun c => if c =? 39 then 34 else c) (js s).

Fixpoint jsstring_eqb (a b : jsstring) : bool :=
  match a, b with
  | [], [] => true
  | x :: a', y :: b' => (x =? y) && jsstring_eqb a' b'
  | _, _ => false
  end.

(** ** JavaScript values *)

(** The values [JSON.parse] can return, and [undefined], which a property
    read yields for a missing property.  A number keeps the literal it was
    read from: the source never looks at the numeric value of a parsed
    number. *)
Inductive JSValue : Type :=
| JUndefined
| JNull
| JBool (b : bool)
| JNumber (literal : jsstring)
| JString (s : jsstring)
| JArray (elements : list JSValue)
| JObject (members : list (jsstring * JSValue)).

(** [a === b] where [b] is a string: true exactly when [a] is a string
    with the same code units. *)
Definition strict_eq_string (a : JSValue) (b : jsstring) : bool :=
  match a with
  | JString s => jsstring_eqb s b
  | _ => false
  end.

(** The own property [key] of an object built by [JSON.parse]: a later
    member with the same name overwrites an earlier one. *)
Fixpoint own_property (members : list (jsstring * JSValue)) (key : jsstring)
  : option JSValue :=
  match members with
  | [] => None
  | (k, v) :: rest =>
      match own_property rest key with
      | Some v' => Some v'
      | None => if jsstring_eqb k key then Some v else None
      end
  end.

(** [v.key] for a property name that no built-in prototype defines and
    that is neither an index nor [length] (the source reads [action] and
    [button] only).  [None] is the [TypeError] of reading a property of
    [null] or [undefined]; on every other value a missing property reads
    as [undefined]. *)
Definition get_property (v : JSValue) (key : jsstring) : option JSValue :=
  match v with
  | JUndefined | JNull => None
  | JObject members =>
      match own_property members key with
      | Some x => Some x
      | None => Some JUndefined
      end
  | _ => Some JUndefined
  end.

(** ** [JSON.parse] *)

Module Json.

(** JSON white space: tab, line feed, carriage return, space. *)
Definition is_ws (c : N) : bool :=
  (c =? 9) || (c =? 10) || (c =? 13) || (c =? 32).

Definition is_digit (c : N) : bool := (48 <=? c) && (c <=? 57).

Definition hex_value (c : N) : option N :=
  if is_digit c then Some (c - 48)
  else if (97 <=? c) && (c <=? 102) then Some (c - 87)
  else if (65 <=? c) && (c <=? 70) then Some (c - 55)
  else None.

Fixpoint skip_ws (s : jsstring) : jsstring :=
  match s with
  | c :: r => if is_ws c then skip_ws r else s
  | [] => []
  end.

(** [expect lit s] strips the literal [lit] from the front of [s]. *)
Fixpoint expect (lit s : jsstring) : option jsstring :=
  match lit, s with
  | [], _ => Some s
  | l :: lit', c :: s' => if l =? c then expect lit' s' else None
  | _ :: _, [] => None
  end.

(** The longest prefix of digits, and what follows it. *)
Fixpoint take_digits (s : jsstring) : jsstring * jsstring :=
  match s with
  | c :: r =>
      if is_digit c
      then let (ds, rest) := take_digits r in (c :: ds, rest)
      else ([], s)
  | [] => ([], [])
  end.

(** One or more digits. *)
Definition digits1 (s : jsstring) : option (jsstring * jsstring) :=
  match take_digits s with
  | ([], _) => None
  | (ds, rest) => Some (ds, rest)
  end.

(** [int]: a single [0], or a non-zero digit followed by digits. *)
Definition lex_int (s : jsstring) : option (jsstring * jsstring) :=
  match s with
  | c :: r =>
      if c =? 48 then Some ([c], r)
      else if is_digit c then digits1 s
      else None
  | [] => None
  end.

(** [frac]: absent, or a dot followed by one or more digits. *)
Definition lex_frac (s : jsstring) : option (jsstring * jsstring) :=
  match s with
  | c :: r =>
      if c =? 46
      then match digits1 r with
           | Some (ds, rest) => Some (c :: ds, rest)
           | None => None
           end
      else Some ([], s)
  | [] => Some ([], [])
  end.

(** [exp]: absent, or [e]/[E], an optional sign, one or more digits. *)
Definition lex_exp (s : jsstring) : option (jsstring * jsstring) :=
  match s with
  | c :: r =>
      if (c =? 101) || (c =? 69)
      then match r with
           | sg :: r' =>
               if (sg =? 43) || (sg =? 45)
               then match digits1 r' with
                    | Some (ds, rest) => Some (c :: sg :: ds, rest)
                    | None => None
                    end
               else match digits1 r with
                    | Some (ds, rest) => Some (c :: ds, rest)
                    | None => None
                    end
           | [] => None
           end
      else Some ([], s)
  | [] => Some ([], [])
  end.

(** A number literal after its optional minus sign. *)
Definition lex_unsigned (s : jsstring) : option (jsstring * jsstring) :=
  match lex_int s with
  | Some (i, r1) =>
      match lex_frac r1 with
      | Some (f, r2) =>
          match lex_exp r2 with
          | Some (e, r3) => Some (i ++ f ++ e, r3)
          | None => None
          end
      | None => None
      end
  | None => None
  end.

Definition lex_number (s : jsstring) : option (jsstring * jsstring) :=
  match s with
  | c :: r =>
      if c =? 45
      then match lex_unsigned r with
           | Some (l, rest) => Some (c :: l, rest)
           | None => None
           end
      else lex_unsigned s
  | [] => None
  end.

(** The character a single-letter escape stands for. *)
Definition simple_escape (c : N) : option N :=
  if c =? 34 then Some 34           (* quotation mark *)
  else if c =? 92 then Some 92      (* reverse solidus *)
  else if c =? 47 then Some 47      (* solidus *)
  else if c =? 98 then Some 8       (* b: backspace *)
  else if c =? 102 then Some 12     (* f: form feed *)
  else if c =? 110 then Some 10     (* n: line feed *)
  else if c =? 114 then Some 13     (* r: carriage return *)
  else if c =? 116 then Some 9      (* t: tab *)
  else None.

Definition hex4 (a b c d : N) : option N :=
  match hex_value a, hex_value b, hex_value c, hex_value d with
  | Some x, Some y, Some z, Some w => Some (((x * 16 + y) * 16 + z) * 16 + w)
  | _, _, _, _ => None
  end.

(** The characters of a string literal after its opening quote, up to
    and including the closing quote. *)
Fixpoint lex_string (s : jsstring) : option (jsstring * jsstring) :=
  match s with
  | [] => None
  | c :: r =>
      if c =? 34 then Some ([], r)
      else if c =? 92 then
        match r with
        | e :: r' =>
            if e =? 117 then
              match r' with
              | h1 :: h2 :: h3 :: h4 :: r'' =>
                  match hex4 h1 h2 h3 h4, lex_string r'' with
                  | Some u, Some (cs, rest) => Some (u :: cs, rest)
                  | _, _ => None
                  end
              | _ => None
              end
            else
              match simple_escape e, lex_string r' with
              | Some x, Some (cs, rest) => Some (x :: cs, rest)
              | _, _ => None
              end
        | [] => None
        end
      else if c <? 32 then None
      else match lex_string r with
           | Some (cs, rest) => Some (c :: cs, rest)
           | None => None
           end
  end.

Inductive result (A : Type) : Type :=
| Parsed (a : A) (rest : jsstring)
| SyntaxErr
| OutOfFuel.
Arguments Parsed {A} a rest.
Arguments SyntaxErr {A}.
Arguments OutOfFuel {A}.

(** Recursive descent over the JSON grammar.  [value] reads one value
    with its leading white space, [elements] the rest of an array after
    [[], [members] the rest of an object after [{]. *)
Fixpoint value (fuel : nat) (s : jsstring) {struct fuel} : result JSValue :=
  match fuel with
  | O => OutOfFuel
  | S fuel' =>
      match skip_ws s with
      | [] => SyntaxErr
      | c :: r =>
          if c =? 123 then                       (* { *)
            match skip_ws r with
            | c' :: r' =>
                if c' =? 125 then Parsed (JObject []) r'
                else match members fuel' (c' :: r') with
                     | Parsed ms rest => Parsed (JObject ms) rest
                     | SyntaxErr => SyntaxErr
                     | OutOfFuel => OutOfFuel
                     end
            | [] => SyntaxErr
            end
          else if c =? 91 then                   (* [ *)
            match skip_ws r with
            | c' :: r' =>
                if c' =? 93 then Parsed (JArray []) r'
                else match elements fuel' (c' :: r') with
                     | Parsed vs rest => Parsed (JArray vs) rest
                     | SyntaxErr => SyntaxErr
                     | OutOfFuel => OutOfFuel
                     end
            | [] => SyntaxErr
            end
          else if c =? 34 then                   (* a string *)
            match lex_string r with
            | Some (cs, rest) => Parsed (JString cs) rest
            | None => SyntaxErr
            end
          else if c =? 110 then                  (* null *)
            match expect (js "ull") r with
            | Some rest => Parsed JNull rest
            | None => SyntaxErr
            end
          else if c =? 116 then                  (* true *)
            match expect (js "rue") r with
            | Some rest => Parsed (JBool true) rest
            | None => SyntaxErr
            end
          else if c =? 102 then                  (* false *)
            match expect (js "alse") r with
            | Some rest => Parsed (JBool false) rest
            | None => SyntaxErr
            end
          else
            match lex_number (c :: r) with
            | Some (l, rest) => Parsed (JNumber l) rest
            | None => SyntaxErr
            end
      end
  end
with elements (fuel : nat) (s : jsstring) {struct fuel}
  : result (list JSValue) :=
  match fuel with
  | O => OutOfFuel
  | S fuel' =>
      match value fuel' s with
      | Parsed v r =>
          match skip_ws r with
          | c :: r' =>
              if c =? 44 then                    (* , *)
                match elements fuel' r' with
                | Parsed vs rest => Parsed (v :: vs) rest
                | SyntaxErr => SyntaxErr
                | OutOfFuel => OutOfFuel
                end
              else if c =? 93 then Parsed [v] r' (* ] *)
              else SyntaxErr
          | [] => SyntaxErr
          end
      | SyntaxErr => SyntaxErr
      | OutOfFuel => OutOfFuel
      end
  end
with members (fuel : nat) (s : jsstring) {struct fuel}
  : result (list (jsstring * JSValue)) :=
  match fuel with
  | O => OutOfFuel
  | S fuel' =>
      match skip_ws s with
      | c :: r =>
          if c =? 34 then
            match lex_string r with
            | Some (k, r1) =>
                match skip_ws r1 with
                | c1 :: r2 =>
                    if c1 =? 58 then             (* : *)
                      match value fuel' r2 with
                      | Parsed v r3 =>
                          match skip_ws r3 with
                          | c3 :: r4 =>
                              if c3 =? 44 then
                                match members fuel' r4 with
                                | Parsed ms rest => Parsed ((k, v) :: ms) rest
                                | SyntaxErr => SyntaxErr
                                | OutOfFuel => OutOfFuel
                                end
                              else if c3 =? 125 then Parsed [(k, v)] r4
                              else SyntaxErr
                          | [] => SyntaxErr
                          end
                      | SyntaxErr => SyntaxErr
                      | OutOfFuel => OutOfFuel
                      end
                    else SyntaxErr
                | [] => SyntaxErr
                end
            | None => SyntaxErr
            end
          else SyntaxErr
      | [] => SyntaxErr
      end
  end.

(** Fuel that always suffices: every two nested calls consume a
    character (see [JsonFacts.parse_fuel]). *)
Definition fuel_for (s : jsstring) : nat := 2 * List.length s + 1.

(** A parser is fuelled at [fuel] when, given more than twice as much
    fuel as characters plus [slack], it does not run out of fuel and
    leaves unread less than it was given. *)
Definition fuelled {A} (parser : nat -> jsstring -> result A)
           (slack fuel : nat) : Prop :=
  forall s,
    (2 * List.length s + slack < fuel)%nat ->
    parser fuel s <> OutOfFuel /\
    forall a r, parser fuel s = Parsed a r ->
                (List.length r < List.length s)%nat.

End Json.

(** [JSON.parse(text)]: the value of a JSON text, or [None] where
    [JSON.parse] throws a [SyntaxError].  The limit an engine puts on the
    nesting depth of a text is not modelled. *)
Definition JSON_parse (text : jsstring) : option JSValue :=
  match Json.value (Json.fuel_for text) text with
  | Json.Parsed v rest =>
      match Json.skip_ws rest with
      | [] => Some v
      | _ :: _ => None
      end
  | _ => None
  end.

(** ** The host application: state and effects *)

(** The two [useState] cells of [App].  [hasPermission] is
    [boolean | null]: [None] is [null]. *)
Record AppState : Type := mkAppState {
  hasPermission : option bool;
  showCamera : bool
}.

Inductive LogLevel : Type := Log | Warn.

(** One call of [console.log] or [console.warn] with its arguments. *)
Record LogEntry : Type := mkLog {
  level : LogLevel;
  args : list JSValue
}.

(** What a handler of [App] can read and write: the React state and the
    console. *)
Record Host : Type := mkHost {
  state : AppState;
  console : list LogEntry
}.

Inductive Exn : Type :=
| SyntaxError      (* thrown by JSON.parse *)
| TypeError        (* thrown by a property read on null or undefined *)
| Rejection        (* an awaited promise was rejected *)
| PageError.       (* thrown by code of the loaded page *)

(** Code running against a world [W]: it may change the world and either
    returns or throws.  What it did before throwing stays done. *)
Definition Eff (W A : Type) : Type := W -> (A + Exn) * W.

Definition ret {W A} (a : A) : Eff W A := fun w => (inl a, w).

Definition bind {W A B} (m : Eff W A) (k : A -> Eff W B) : Eff W B :=
  fun w =>
    match m w with
    | (inl a, w') => k a w'
    | (inr e, w') => (inr e, w')
    end.

Definition throw {W A} (e : Exn) : Eff W A := fun w => (inr e, w).

(** [try { body } catch (e) { handler }] *)
Definition try_catch {W A} (body : Eff W A) (handler : Exn -> Eff W A)
  : Eff W A :=
  fun w =>
    match body w with
    | (inl a, w') => (inl a, w')
    | (inr e, w') => handler e w'
    end.

(** Host code. *)
Definition M : Type -> Type := Eff Host.

Declare Scope eff_scope.
Delimit Scope eff_scope with eff.
Notation "x <- m ;; k" := (bind m (fun x => k))
  (at level 61, m at next level, right associativity) : eff_scope.
Notation "m ;; k" := (bind m (fun _ => k))
  (at level 61, right associativity) : eff_scope.
Local Open Scope eff_scope.

Definition console_log (a : list JSValue) : M unit :=
  fun h => (inl tt, mkHost (state h) (console h ++ [mkLog Log a])).

Definition console_warn (a : list JSValue) : M unit :=
  fun h => (inl tt, mkHost (state h) (console h ++ [mkLog Warn a])).

Definition setHasPermission (v : option bool) : M unit :=
  fun h => (inl tt, mkHost (mkAppState v (showCamera (state h))) (console h)).

Definition setShowCamera (v : bool) : M unit :=
  fun h => (inl tt, mkHost (mkAppState (hasPermission (state h)) v) (console h)).

(** [JSON.parse(text)] as host code. *)
Definition parse (text : jsstring) : M JSValue :=
  match JSON_parse text with
  | Some v => ret v
  | None => throw SyntaxError
  end.

(** [v.key] as host code. *)
Definition member (v : JSValue) (key : jsstring) : M JSValue :=
  match get_property v key with
  | Some x => ret x
  | None => throw TypeError
  end.

(** ** [handleWebViewMessage] *)

(** The event [onMessage] is called with; [data] is
    [event.nativeEvent.data], the string the page posted. *)
Record NativeEvent : Type := mkNativeEvent { data : jsstring }.
Record MessageEvent : Type := mkEvent { nativeEvent : NativeEvent }.

Definition handleWebViewMessage (event : MessageEvent) : M unit :=
  let message := data (nativeEvent event) in
  console_log [JString (js "Message from WebView:"); JString message] ;;
  try_catch
    (data <- parse message ;;
     a <- member data (js "action") ;;
     if strict_eq_string a (js "SHOW_CAMERA") then
       console_log [JString (js "Show camera requested")] ;;
       setShowCamera true
     else
       a <- member data (js "action") ;;
       if strict_eq_string a (js "HIDE_CAMERA") then
         console_log [JString (js "Hide camera requested")] ;;
         setShowCamera false
       else
         a <- member data (js "action") ;;
         if strict_eq_string a (js "BUTTON_CLICKED") then
           b <- member data (js "button") ;;
           console_log [JString (js "Button clicked:"); b]
         else ret tt)
    (fun _ => console_log [JString (js "Non-JSON message:"); JString message]).

(** The other callbacks passed to the [WebView]. *)
Definition onError (nativeEvent : JSValue) : M unit :=
  console_warn [JString (js "WebView error:"); nativeEvent].

Definition onHttpError (statusCode : JSValue) : M unit :=
  console_warn [JString (js "HTTP error:"); statusCode].

Definition onLoadStart : M unit :=
  console_log [JString (js "WebView load start")].

Definition onLoadEnd : M unit :=
  console_log [JString (js "WebView load end")].

Definition onShouldStartLoadWithRequest (url : jsstring) : M bool :=
  console_log [JString (js "Navigation to:"); JString url] ;;
  ret true.

(** ** The permission effect *)

(** How an awaited promise settles. *)
Inductive Settlement (A : Type) : Type :=
| Fulfilled (a : A)
| Rejected.
Arguments Fulfilled {A} a.
Arguments Rejected {A}.

(** The object [Camera.requestCameraPermissionsAsync()] resolves to, as
    far as the source reads it. *)
Record PermissionResponse : Type := mkResponse { status : jsstring }.

(** The body of the async function of [useEffect], run from the [await]
    on with the settlement of the request. *)
Definition permissionEffect (o : Settlement PermissionResponse) : M unit :=
  match o with
  | Fulfilled r =>
      setHasPermission (Some (jsstring_eqb (status r) (js "granted")))
  | Rejected => throw Rejection
  end.

Definition initialState : AppState := mkAppState None false.

(** ** Rendering *)

Local Open Scope string_scope.

(** The callbacks that occur as props. *)
Inductive Callback : Type :=
| HandleWebViewMessage
| OnError
| OnHttpError
| OnLoadStart
| OnLoadEnd
| OnShouldStartLoadWithRequest.

Inductive PropValue : Type :=
| PBool (b : bool)
| PStyle (name : string)            (* styles.<name> *)
| PRef (name : string)
| PEdges (edges : list string)
| PUri (uri : string)               (* source={{ uri }} *)
| PScript                           (* the injectedJavaScript string *)
| PCallback (c : Callback)
| PCameraType (t : string).

(** A React element: its component, its props in source order, its
    children; or a text child. *)
Inductive Element : Type :=
| Elem (tag : string) (props : list (string * PropValue))
       (children : list Element)
| Text (s : string).

Definition styled (tag style : string) (children : list Element) : Element :=
  Elem tag [("style", PStyle style)] children.

Definition loadingView : Element :=
  styled "SafeAreaProvider" "container"
    [styled "SafeAreaView" "container"
       [styled "View" "centered" [styled "View" "loader" []]]].

Definition denialView : Element :=
  styled "SafeAreaProvider" "container"
    [styled "SafeAreaView" "container"
       [styled "View" "centered"
          [styled "View" "errorBox"
             [styled "View" "errorIcon" [styled "View" "errorIconInner" []];
              styled "View" "errorText" [Text "Camera permission denied"];
              styled "View" "errorSubtext"
                [Text "Please enable it in settings"]]]]].

Definition webView : Element :=
  Elem "WebView"
    [("ref", PRef "webViewRef");
     ("source", PUri "https://pushupchallange.netlify.app/");
     ("style", PStyle "webview");
     ("javaScriptEnabled", PBool true);
     ("domStorageEnabled", PBool true);
     ("mediaPlaybackRequiresUserAction", PBool false);
     ("allowsInlineMediaPlayback", PBool true);
     ("startInLoadingState", PBool true);
     ("injectedJavaScript", PScript);
     ("onMessage", PCallback HandleWebViewMessage);
     ("scrollEnabled", PBool true);
     ("bounces", PBool false);
     ("showsVerticalScrollIndicator", PBool false);
     ("showsHorizontalScrollIndicator", PBool false);
     ("allowsProtectedMedia", PBool true);
     ("mediaPlaybackRequiresUserAction", PBool false);
     ("onError", PCallback OnError);
     ("onHttpError", PCallback OnHttpError);
     ("onLoadStart", PCallback OnLoadStart);
     ("onLoadEnd", PCallback OnLoadEnd);
     ("onShouldStartLoadWithRequest", PCallback OnShouldStartLoadWithRequest)]
    [].

Definition cameraOverlay : Element :=
  styled "View" "cameraOverlay"
    [Elem "Camera"
       [("ref", PRef "cameraRef");
        ("style", PStyle "camera");
        ("type", PCameraType "front")]
       []].

(** [{showCamera && (...)}]: the overlay, or nothing. *)
Definition mainView (showCamera : bool) : Element :=
  styled "SafeAreaProvider" "container"
    [Elem "SafeAreaView"
       [("style", PStyle "container"); ("edges", PEdges ["top"])]
       (webView :: if showCamera then [cameraOverlay] else [])].

(** What [App] returns for a state. *)
Definition App (st : AppState) : Element :=
  match hasPermission st with
  | None => loadingView
  | Some false => denialView
  | Some true => mainView (showCamera st)
  end.

(** The prop lists of all elements of component [tag] in a tree. *)
Fixpoint elements_of (tag : string) (e : Element)
  : list (list (string * PropValue)) :=
  match e with
  | Elem t props children =>
      (if String.eqb t tag then [props] else [])
        ++ flat_map (elements_of tag) children
  | Text _ => []
  end.

Definition mounted (tag : string) (e : Element) : bool :=
  match elements_of tag e with
  | [] => false
  | _ :: _ => true
  end.

(** Is callback [c] passed, as any prop, to an element of the tree?  A
    callback that is passed to nothing is never called. *)
Definition has_callback (c : Callback) (props : list (string * PropValue))
  : bool :=
  existsb (fun p => match snd p with
                    | PCallback c' =>
                        match c, c' with
                        | HandleWebViewMessage, HandleWebViewMessage
                        | OnError, OnError
                        | OnHttpError, OnHttpError
                        | OnLoadStart, OnLoadStart
                        | OnLoadEnd, OnLoadEnd
                        | OnShouldStartLoadWithRequest,
                          OnShouldStartLoadWithRequest => true
                        | _, _ => false
                        end
                    | _ => false
                    end) props.

Fixpoint wired (c : Callback) (e : Element) : bool :=
  match e with
  | Elem _ props children =>
      has_callback c props || existsb (wired c) children
  | Text _ => false
  end.

(** ** A session of the application *)

(** The permission request of the mount effect ([useEffect] with an
    empty dependency list: issued once): not yet settled, or settled. *)
Inductive RequestState : Type := Pending | Settled.

Record Session : Type := mkSession {
  host : Host;
  request : RequestState
}.

(** What can happen to the running application. *)
Inductive Event : Type :=
| PermissionSettled (o : Settlement PermissionResponse)
| Message (event : MessageEvent)
| WebViewError (nativeEvent : JSValue)
| HttpError (statusCode : JSValue)
| LoadStart
| LoadEnd
| ShouldStartLoad (url : jsstring).

(** The callback a WebView event is delivered to, and its run. *)
Definition callback_of (e : Event) : option Callback :=
  match e with
  | PermissionSettled _ => None
  | Message _ => Some HandleWebViewMessage
  | WebViewError _ => Some OnError
  | HttpError _ => Some OnHttpError
  | LoadStart => Some OnLoadStart
  | LoadEnd => Some OnLoadEnd
  | ShouldStartLoad _ => Some OnShouldStartLoadWithRequest
  end.

Definition deliver (e : Event) : M unit :=
  match e with
  | PermissionSettled o => permissionEffect o
  | Message event => handleWebViewMessage event
  | WebViewError ne => onError ne
  | HttpError code => onHttpError code
  | LoadStart => onLoadStart
  | LoadEnd => onLoadEnd
  | ShouldStartLoad url => _ <- onShouldStartLoadWithRequest url ;; ret tt
  end.

Inductive Outcome : Type :=
| Next (s : Session)
| NotEnabled
| Uncaught (e : Exn).

(** One event.  The request settles only while pending; a rejection that
    nothing catches ends the async function and changes nothing.  A
    WebView event reaches its callback only if the current render passes
    that callback to an element. *)
Definition step (s : Session) (e : Event) : Outcome :=
  match callback_of e with
  | None =>
      match request s with
      | Pending => Next (mkSession (snd (deliver e (host s))) Settled)
      | Settled => NotEnabled
      end
  | Some c =>
      if wired c (App (state (host s))) then
        match deliver e (host s) with
        | (inl _, h') => Next (mkSession h' (request s))
        | (inr ex, _) => Uncaught ex
        end
      else NotEnabled
  end.

Definition initialSession : Session :=
  mkSession (mkHost initialState []) Pending.

(** A run: the session after a list of events, each of them enabled. *)
Fixpoint run (s : Session) (es : list Event) : option Session :=
  match es with
  | [] => Some s
  | e :: es' =>
      match step s e with
      | Next s' => run s' es'
      | _ => None
      end
  end.

Definition permission (s : Session) : option bool :=
  hasPermission (state (host s)).

Definition camera (s : Session) : bool := showCamera (state (host s)).

Definition permission_eqb (a b : option bool) : bool :=
  match a, b with
  | None, None => true
  | Some x, Some y => Bool.eqb x y
  | _, _ => false
  end.

(** The number of steps of a run at which [hasPermission] changes. *)
Fixpoint transitions (s : Session) (es : list Event) : nat :=
  match es with
  | [] => 0
  | e :: es' =>
      match step s e with
      | Next s' =>
          (if permission_eqb (permission s) (permission s') then 0 else 1)
          + transitions s' es'
      | _ => 0
      end
  end%nat.

(** ** The injected script: [console.log] override and [goToScreen] *)

Local Close Scope string_scope.
Local Open Scope N_scope.

(** [Number::toString] of an integer-valued number of magnitude below
    10^21: its decimal numeral. *)
Definition Number_toString (n : Z) : jsstring :=
  js (NilZero.string_of_int (Z.to_int n)).

(** The values the script passes to [console.log]. *)
Inductive PageValue : Type :=
| VString (s : jsstring)
| VNumber (n : Z).

Definition ToString (v : PageValue) : jsstring :=
  match v with
  | VString s => s
  | VNumber n => Number_toString n
  end.

(** [args.join(sep)] *)
Fixpoint join (args : list PageValue) (sep : jsstring) : jsstring :=
  match args with
  | [] => []
  | [v] => ToString v
  | v :: rest => ToString v ++ sep ++ join rest sep
  end.

Module Stringify.

Definition hex_digit (d : N) : N := if d <? 10 then 48 + d else 87 + d.

(** [UnicodeEscape]: reverse solidus, [u], four lower-case hex digits. *)
Definition unicode_escape (c : N) : jsstring :=
  [92; 117; hex_digit (c / 4096 mod 16); hex_digit (c / 256 mod 16);
   hex_digit (c / 16 mod 16); hex_digit (c mod 16)].

Definition is_lead (c : N) : bool := (55296 <=? c) && (c <=? 56319).
Definition is_trail (c : N) : bool := (56320 <=? c) && (c <=? 57343).

(** One code unit that is not a surrogate. *)
Definition quote_unit (c : N) : jsstring :=
  if c =? 8 then [92; 98]
  else if c =? 9 then [92; 116]
  else if c =? 10 then [92; 110]
  else if c =? 12 then [92; 102]
  else if c =? 13 then [92; 114]
  else if c =? 34 then [92; 34]
  else if c =? 92 then [92; 92]
  else if c <? 32 then unicode_escape c
  else [c].

(** A surrogate pair is kept; a lone surrogate is escaped. *)
Fixpoint quote_units (s : jsstring) : jsstring :=
  match s with
  | [] => []
  | c :: r =>
      if is_lead c then
        match r with
        | d :: r' =>
            if is_trail d then c :: d :: quote_units r'
            else unicode_escape c ++ quote_units r
        | [] => unicode_escape c
        end
      else if is_trail c then unicode_escape c ++ quote_units r
      else quote_unit c ++ quote_units r
  end.

(** [QuoteJSONString] *)
Definition quote (s : jsstring) : jsstring := 34 :: quote_units s ++ [34].

Fixpoint properties (ps : list (jsstring * jsstring)) : jsstring :=
  match ps with
  | [] => []
  | [(k, v)] => quote k ++ 58 :: quote v
  | (k, v) :: rest => quote k ++ 58 :: quote v ++ 44 :: properties rest
  end.

End Stringify.

(** [JSON.stringify(o)] for an object literal [o] whose properties all
    hold strings and have distinct non-numeric names, given as its
    properties in source order: every call in the script is of this form. *)
Definition JSON_stringify (o : list (jsstring * jsstring)) : jsstring :=
  123 :: Stringify.properties o ++ [125].

(** The page as the script sees it: the messages posted so far through
    [window.ReactNativeWebView.postMessage], the output of the page's own
    [console.log], and the state [S] of the page itself. *)
Record Page (S : Type) : Type := mkPage {
  posted : list jsstring;
  pageConsole : list (list PageValue);
  pageState : S
}.
Arguments mkPage {S} posted pageConsole pageState.
Arguments posted {S} p.
Arguments pageConsole {S} p.
Arguments pageState {S} p.

(** The value of [window.goToScreen] when the script captures it. *)
Inductive Global (S : Type) : Type :=
| GUndefined
| GFunction (f : Z -> Eff (Page S) unit)
| GOther.             (* any other value: [typeof] is not 'function' *)
Arguments GUndefined {S}.
Arguments GFunction {S} f.
Arguments GOther {S}.

Section InjectedScript.

Context {S : Type}.

Definition postMessage (m : jsstring) : Eff (Page S) unit :=
  fun p => (inl tt, mkPage (posted p ++ [m]) (pageConsole p) (pageState p)).

(** [originalLog.apply(console, args)] *)
Definition originalLog (args : list PageValue) : Eff (Page S) unit :=
  fun p => (inl tt, mkPage (posted p) (pageConsole p ++ [args]) (pageState p)).

(** The function the script assigns to [console.log]. *)
Definition page_console_log (args : list PageValue) : Eff (Page S) unit :=
  postMessage (JSON_stringify
                 [(js "type", js "CONSOLE_LOG");
                  (js "message", join args (js " "))]) ;;
  originalLog args.

(** The function the script assigns to [window.goToScreen];
    [originalGoToScreen] is the value it found there. *)
Definition goToScreen (originalGoToScreen : Global S) (n : Z)
  : Eff (Page S) unit :=
  page_console_log [VString (js "Going to screen:"); VNumber n] ;;
  postMessage (JSON_stringify
                 [(js "action", js "BUTTON_CLICKED");
                  (js "button", js "screen_" ++ Number_toString n)]) ;;
  (if (n =? 5)%Z
   then postMessage (JSON_stringify [(js "action", js "SHOW_CAMERA")])
   else postMessage (JSON_stringify [(js "action", js "HIDE_CAMERA")])) ;;
  match originalGoToScreen with
  | GFunction f => f n
  | _ => ret tt
  end.

End InjectedScript.

(** The events by which the host receives posted messages, in order. *)
Definition messages (posts : list jsstring) : list Event :=
  map (fun m => Message (mkEvent (mkNativeEvent m))) posts.

(** A page that has posted nothing yet. *)
Definition freshPage : Page unit := mkPage [] [] tt.

(** ** What a message asks for *)

Definition event_of (m : jsstring) : MessageEvent := mkEvent (mkNativeEvent m).

(** The [action] of a message: the value of [JSON.parse(m).action], where
    both the parse and the property read succeed. *)
Definition action_of (m : jsstring) : option JSValue :=
  match JSON_parse m with
  | Some v => get_property v (js "action")
  | None => None
  end.

(** The message is well-formed JSON whose [action] is the string [a]. *)
Definition has_action (m a : jsstring) : bool :=
  match action_of m with
  | Some x => strict_eq_string x a
  | None => false
  end.

(** [showCamera] after a message, as the message schema states it. *)
Definition camera_after (m : jsstring) (before : bool) : bool :=
  if has_action m (js "SHOW_CAMERA") then true
  else if has_action m (js "HIDE_CAMERA") then false
  else before.

(** The console entries of [handleWebViewMessage]. *)
Definition logged (text : string) (rest : list JSValue) : LogEntry :=
  mkLog Log (JString (js text) :: rest).

Definition received (m : jsstring) : LogEntry :=
  logged "Message from WebView:" [JString m].

Definition nonJson (m : jsstring) : LogEntry :=
  logged "Non-JSON message:" [JString m].

(** Sample sessions: permission granted, camera hidden or shown;
    permission denied. *)
Definition sessionWith (permission : option bool) (camera : bool)
           (r : RequestState) : Session :=
  mkSession (mkHost (mkAppState permission camera) []) r.

Definition grantedSession : Session := sessionWith (Some true) false Settled.

Definition showMessage : jsstring := jsq "{'action':'SHOW_CAMERA'}".
Definition hideMessage : jsstring := jsq "{'action':'HIDE_CAMERA'}".

(** The permission is known only after the request has settled. *)
Definition known_after_settled (s : Session) : Prop :=
  permission s <> None -> request s = Settled.

(** A run in which the request is granted and the page then asks for
    the camera, and the session it ends in. *)
Definition grantedRun : list Event :=
  [PermissionSettled (Fulfilled (mkResponse (js "granted")));
   LoadStart;
   Message (event_of showMessage)].

Definition session_after (es : list Event) : Session :=
  match run initialSession es with
  | Some s => s
  | None => initialSession
  end.

(** Characters that a JSON string literal holds as they are: no control
    character, quotation mark, reverse solidus or surrogate. *)
Definition is_plain (c : N) : bool :=
  (32 <=? c) && negb (c =? 34) && negb (c =? 92) && (c <? 55296).

Definition plain (s : jsstring) : bool := forallb is_plain s.

Definition plain_properties (ps : list (jsstring * jsstring)) : bool :=
  forallb (fun p => plain (fst p) && plain (snd p)) ps.

(** The object a list of string properties denotes. *)
Definition object_of (ps : list (jsstring * jsstring)) : JSValue :=
  JObject (map (fun p => (fst p, JString (snd p))) ps).

(** The texts [goToScreen(n)] posts, written out. *)
Definition consoleMessage (n : Z) : jsstring :=
  jsq "{'type':'CONSOLE_LOG','message':'Going to screen: "
    ++ Number_toString n ++ jsq "'}".

Definition buttonMessage (n : Z) : jsstring :=
  jsq "{'action':'BUTTON_CLICKED','button':'screen_"
    ++ Number_toString n ++ jsq "'}".

Definition cameraMessage (n : Z) : jsstring :=
  if (n =? 5)%Z then showMessage else hideMessage.

(** [Number.isSafeInteger(n)]: the integers a number holds exactly, and
    on which [Number_toString] is [Number::toString]. *)
Definition isSafeInteger (n : Z) : Prop :=
  (- 9007199254740991 <= n <= 9007199254740991)%Z.

(** ** Sessions reached from the start, and what messages command *)

(** A session the application can be in: one that some run from the
    initial session ends in. *)
Definition reachable (s : Session) : Prop :=
  exists es, run initialSession es = Some s.

(** What holds of every reachable session: the permission is known only
    once the request has settled, and the camera shows only with
    permission granted. *)
Definition session_inv (s : Session) : Prop :=
  known_after_settled s /\ (camera s = true -> permission s = Some true).

(** What one message commands for the camera, if anything. *)
Definition command (m : jsstring) : option bool :=
  if has_action m (js "SHOW_CAMERA") then Some true
  else if has_action m (js "HIDE_CAMERA") then Some false
  else None.

Definition commands (m : jsstring) : bool :=
  match command m with
  | Some _ => true
  | None => false
  end.

(** The command of the last message of [posts] that commands anything. *)
Definition last_command (posts : list jsstring) : option bool :=
  match find commands (rev posts) with
  | Some m => command m
  | None => None
  end.

(** The console lines of the two camera branches. *)
Definition cameraLine (shown : bool) : LogEntry :=
  if shown then logged "Show camera requested" []
  else logged "Hide camera requested" [].

(** ** Navigation as the host sees it *)

(** ['screen_' + n] *)
Definition screenLabel (n : Z) : jsstring := js "screen_" ++ Number_toString n.

(** The three texts one call [goToScreen(n)] posts, in order. *)
Definition screenMessages (n : Z) : list jsstring :=
  [consoleMessage n; buttonMessage n; cameraMessage n].

(** The console lines the host writes when it receives them. *)
Definition hostLines (n : Z) : list LogEntry :=
  [received (consoleMessage n);
   received (buttonMessage n);
   logged "Button clicked:" [JString (screenLabel n)];
   received (cameraMessage n);
   cameraLine (n =? 5)%Z].

(** The page calling [goToScreen] for each index of [ns] in turn. *)
Fixpoint visit {S : Type} (original : Global S) (ns : list Z)
  : Eff (Page S) unit :=
  match ns with
  | [] => ret tt
  | n :: rest => goToScreen original n ;; visit original rest
  end.

(** An original navigation function that returns normally and posts
    nothing itself; no original at all is quiet too. *)
Definition quiet {S : Type} (original : Global S) : Prop :=
  match original with
  | GFunction f =>
      forall n p, exists p', f n p = (inl tt, p') /\ posted p' = posted p
  | GUndefined | GOther => True
  end.

(** ** Strings as the bridge carries them *)

(** A JavaScript string holds 16-bit code units. *)
Definition is_unit (c : N) : bool := c <? 65536.

Definition wellformed (s : jsstring) : bool := forallb is_unit s.

Definition wellformed_value (v : PageValue) : bool :=
  match v with
  | VString s => wellformed s
  | VNumber _ => true
  end.

Definition wellformed_properties (ps : list (jsstring * jsstring)) : bool :=
  forallb (fun p => wellformed (fst p) && wellformed (snd p)) ps.

(** The result of lexing a string literal, with one more character in
    front. *)
Definition cons_result (c : N) (r : option (jsstring * jsstring))
  : option (jsstring * jsstring) :=
  match r with
  | Some (cs, rest) => Some (c :: cs, rest)
  | None => None
  end.

(** The text the overridden [console.log] posts for [args]. *)
Definition logMessage (args : list PageValue) : jsstring :=
  JSON_stringify [(js "type", js "CONSOLE_LOG");
                  (js "message", join args (js " "))].

(** ** The page's document and the touch listeners of the script *)

(** The inline style properties the script writes; [None] is a property
    that is not set inline. *)
Record Style : Type := mkStyle {
  webkitTouchCallout : option jsstring;
  webkitUserSelect : option jsstring;
  userSelect : option jsstring;
  opacity : option jsstring
}.

(** An element of the page: its classes, its inline style, and how many
    pairs of touch listeners the script has added to it. *)
Record Node : Type := mkNode {
  classList : list jsstring;
  style : Style;
  touchFeedback : nat
}.

(** The elements of the document, in document order. *)
Definition Document : Type := list Node.

Definition has_class (c : jsstring) (nd : Node) : bool :=
  existsb (jsstring_eqb c) (classList nd).

(** Does the element match ['.btn, .app-card, .goal-card']? *)
Definition is_button (nd : Node) : bool :=
  has_class (js "btn") nd || has_class (js "app-card") nd
  || has_class (js "goal-card") nd.

(** The body of the [forEach]: three style properties set to 'none', one
    more pair of listeners. *)
Definition patch (nd : Node) : Node :=
  mkNode (classList nd)
         (mkStyle (Some (js "none")) (Some (js "none")) (Some (js "none"))
                  (opacity (style nd)))
         (S (touchFeedback nd)).

(** [this.style.opacity = v] *)
Definition with_opacity (v : jsstring) (nd : Node) : Node :=
  mkNode (classList nd)
         (mkStyle (webkitTouchCallout (style nd)) (webkitUserSelect (style nd))
                  (userSelect (style nd)) (Some v))
         (touchFeedback nd).

Fixpoint update (i : nat) (f : Node -> Node) (doc : Document) : Document :=
  match doc, i with
  | [], _ => []
  | nd :: rest, O => f nd :: rest
  | nd :: rest, S i' => nd :: update i' f rest
  end.

Definition modifyDocument (f : Document -> Document)
  : Eff (Page Document) unit :=
  fun p => (inl tt, mkPage (posted p) (pageConsole p) (f (pageState p))).

(** The listener of [DOMContentLoaded].  [windowGoToScreen] is the value
    of [window.goToScreen] when it runs; it returns the function it
    assigns to [window.goToScreen]. *)
Definition onDOMContentLoaded (windowGoToScreen : Global Document)
  : Eff (Page Document) (Z -> Eff (Page Document) unit) :=
  page_console_log [VString (js "DOM loaded, fixing touch events")] ;;
  modifyDocument (map (fun nd => if is_button nd then patch nd else nd)) ;;
  ret (goToScreen windowGoToScreen).

(** The two listeners added to a button; [this] is the element at index
    [i]. *)
Definition onTouchStart (i : nat) : Eff (Page Document) unit :=
  modifyDocument (update i (with_opacity (js "0.7"))) ;;
  page_console_log [VString (js "Touch start on button")].

Definition onTouchEnd (i : nat) : Eff (Page Document) unit :=
  modifyDocument (update i (with_opacity (js "1"))) ;;
  page_console_log [VString (js "Touch end on button")].

Definition feedback_at (i : nat) (doc : Document) : nat :=
  match nth_error doc i with
  | Some nd => touchFeedback nd
  | None => 0
  end.

Fixpoint times {W : Type} (n : nat) (m : Eff W unit) : Eff W unit :=
  match n with
  | O => ret tt
  | S n' => m ;; times n' m
  end.

(** A touch event travels along [path]: the indices of its target and of
    the target's ancestors, innermost first.  At each element every
    listener the script added there runs. *)
Fixpoint bubble (listener : nat -> Eff (Page Document) unit)
         (path : list nat) : Eff (Page Document) unit :=
  match path with
  | [] => ret tt
  | i :: up =>
      (fun p => times (feedback_at i (pageState p)) (listener i) p) ;;
      bubble listener up
  end.

(** A [touchstart] reaches the listeners on its path and then the
    listener the script added to the document; a [touchend] reaches the
    listeners on its path. *)
Definition touchstart (path : list nat) : Eff (Page Document) unit :=
  bubble onTouchStart path ;;
  page_console_log [VString (js "Document touch detected")].

Definition touchend (path : list nat) : Eff (Page Document) unit :=
  bubble onTouchEnd path.

(** A document the script has not touched yet. *)
Definition fresh (doc : Document) : bool :=
  forallb (fun nd => Nat.eqb (touchFeedback nd) 0) doc.

Definition on_path (j : nat) (path : list nat) : bool :=
  existsb (Nat.eqb j) path.

(** The shape of both listeners: write an opacity, log a line. *)
Definition feedbackListener (v line : jsstring) (i : nat)
  : Eff (Page Document) unit :=
  modifyDocument (update i (with_opacity v)) ;;
  page_console_log [VString line].

(** What a touch along [path] with opacity [v] does to one element:
    it writes [v] if the element is on the path and carries listeners. *)
Definition touched (v : jsstring) (on : bool) (nd : Node) : Node :=
  if on && negb (Nat.eqb (touchFeedback nd) 0) then with_opacity v nd else nd.

(** One element after the script has run and a touch along [path] has
    written the opacity [v]: a button is patched, and carries [v] if it
    is on the path; any other element is as the page made it. *)
Definition after_touch (v : jsstring) (on : bool) (nd : Node) : Node :=
  if is_button nd
  then if on then with_opacity v (patch nd) else patch nd
  else nd.

(** A text that commands nothing. *)
Definition inert (m : jsstring) : bool := negb (commands m).

(** The texts the touch handling posts. *)
Definition domLoadedText : jsstring :=
  logMessage [VString (js "DOM loaded, fixing touch events")].
Definition touchStartText : jsstring :=
  logMessage [VString (js "Touch start on button")].
Definition touchEndText : jsstring :=
  logMessage [VString (js "Touch end on button")].
Definition documentTouchText : jsstring :=
  logMessage [VString (js "Document touch detected")].

(** The script's [DOMContentLoaded] listener, then a press and a release
    along [path]. *)
Definition touchCycle (windowGoToScreen : Global Document) (path : list nat)
  : Eff (Page Document) unit :=
  _ <- onDOMContentLoaded windowGoToScreen ;;
  touchstart path ;;
  touchend path.

(** * Properties *)

(** ** [JSON.parse] on sample texts *)

Example parse_show :
  JSON_parse showMessage =
  Some (JObject [(js "action", JString (js "SHOW_CAMERA"))]).
Proof. vm_compute; reflexivity. Qed.

Example parse_bare_word : JSON_parse (js "hello") = None.
Proof. vm_compute; reflexivity. Qed.

Example parse_quoted_word :
  JSON_parse (jsq "'hello'") = Some (JString (js "hello")).
Proof. vm_compute; reflexivity. Qed.

Example parse_null : JSON_parse (js "null") = Some JNull.
Proof. vm_compute; reflexivity. Qed.

Example parse_number : JSON_parse (js " -12.5e+3 ") = Some (JNumber (js "-12.5e+3")).
Proof. vm_compute; reflexivity. Qed.

Example parse_nested :
  JSON_parse (jsq "[1, true, {'a': [], 'a': null}, 'xA\n']") =
  Some (JArray [JNumber (js "1"); JBool true;
                JObject [(js "a", JArray []); (js "a", JNull)];
                JString (js "xA" ++ [10])]).
Proof. vm_compute; reflexivity. Qed.

Example parse_rejects :
  map JSON_parse
      [js ""; js "01"; js "1."; js ".5"; js "+1"; js "[1,]"; jsq "{'a':1,}";
       js "{a:1}"; js "nul"; js "-"; js "1 2"; jsq "'\x'"; js "undefined"]
  = repeat None 13.
Proof. vm_compute; reflexivity. Qed.

(** A later duplicate member wins; a missing property of an object, and
    any property of a number or a string, reads as [undefined]; a
    property of [null] cannot be read. *)
Example get_property_samples :
  get_property (JObject [(js "action", JNull); (js "action", JBool true)])
               (js "action") = Some (JBool true) /\
  get_property (JObject [(js "type", JString (js "CONSOLE_LOG"))])
               (js "action") = Some JUndefined /\
  get_property (JNumber (js "5")) (js "action") = Some JUndefined /\
  get_property (JString (js "hello")) (js "action") = Some JUndefined /\
  get_property JNull (js "action") = None.
Proof. repeat split; vm_compute; reflexivity. Qed.

(** ** The handler, case by case *)

Lemma jsstring_eqb_eq (a b : jsstring) : jsstring_eqb a b = true <-> a = b.
Proof.
  revert b; induction a as [|x a IH]; intros [|y b]; simpl;
    try (split; [discriminate | congruence]); [tauto|].
  rewrite andb_true_iff, N.eqb_eq, IH.
  split; [intros [-> ->]; reflexivity | intros H; inversion H; auto].
Qed.

Lemma strict_eq_string_eq (v : JSValue) (a : jsstring) :
  strict_eq_string v a = true <-> v = JString a.
Proof.
  destruct v; simpl; try (split; [discriminate | congruence]).
  rewrite jsstring_eqb_eq. split; congruence.
Qed.

(** A property read fails on [null] and [undefined] only, whatever the
    property. *)
Lemma get_property_some (v : JSValue) (k k' : jsstring) (x : JSValue) :
  get_property v k = Some x -> exists y, get_property v k' = Some y.
Proof.
  destruct v; simpl; try discriminate; eauto.
  intros _. destruct (own_property members k'); eauto.
Qed.

(** The complete behaviour of [handleWebViewMessage]: it never throws,
    always logs the message first, and then does one of five things. *)
Lemma handle_eval (ev : MessageEvent) (h : Host) :
  handleWebViewMessage ev h =
  let m := data (nativeEvent ev) in
  let seen := console h ++ [received m] in
  match JSON_parse m with
  | None => (inl tt, mkHost (state h) (seen ++ [nonJson m]))
  | Some v =>
      match get_property v (js "action") with
      | None => (inl tt, mkHost (state h) (seen ++ [nonJson m]))
      | Some a =>
          if strict_eq_string a (js "SHOW_CAMERA") then
            (inl tt, mkHost (mkAppState (hasPermission (state h)) true)
                            (seen ++ [logged "Show camera requested" []]))
          else if strict_eq_string a (js "HIDE_CAMERA") then
            (inl tt, mkHost (mkAppState (hasPermission (state h)) false)
                            (seen ++ [logged "Hide camera requested" []]))
          else if strict_eq_string a (js "BUTTON_CLICKED") then
            match get_property v (js "button") with
            | Some b =>
                (inl tt, mkHost (state h) (seen ++ [logged "Button clicked:" [b]]))
            | None => (inl tt, mkHost (state h) (seen ++ [nonJson m]))
            end
          else (inl tt, mkHost (state h) seen)
      end
  end.
Proof.
  destruct ev as [[m]]. destruct h as [st out].
  cbv [handleWebViewMessage bind try_catch parse member ret throw
       console_log setShowCamera data nativeEvent state console].
  cbv zeta.
  destruct (JSON_parse m) as [v|]; [|reflexivity].
  destruct (get_property v (js "action")) as [a|]; [|reflexivity].
  destruct (strict_eq_string a (js "SHOW_CAMERA")); [reflexivity|].
  destruct (strict_eq_string a (js "HIDE_CAMERA")); [reflexivity|].
  destruct (strict_eq_string a (js "BUTTON_CLICKED")); [|reflexivity].
  destruct (get_property v (js "button")); reflexivity.
Qed.

Lemma handle_returns (ev : MessageEvent) (h : Host) :
  fst (handleWebViewMessage ev h) = inl tt.
Proof.
  rewrite handle_eval; cbv zeta.
  repeat match goal with
         | |- context [match ?x with _ => _ end] => destruct x
         end; reflexivity.
Qed.

Lemma handle_showCamera (ev : MessageEvent) (h : Host) :
  showCamera (state (snd (handleWebViewMessage ev h))) =
  camera_after (data (nativeEvent ev)) (showCamera (state h)).
Proof.
  rewrite handle_eval; cbv zeta.
  unfold camera_after, has_action, action_of.
  destruct (JSON_parse _) as [v|]; [|reflexivity].
  destruct (get_property v (js "action")) as [a|]; [|reflexivity].
  destruct (strict_eq_string a (js "SHOW_CAMERA")); [reflexivity|].
  destruct (strict_eq_string a (js "HIDE_CAMERA")); [reflexivity|].
  destruct (strict_eq_string a (js "BUTTON_CLICKED")); [|reflexivity].
  destruct (get_property v (js "button")); reflexivity.
Qed.

Lemma handle_hasPermission (ev : MessageEvent) (h : Host) :
  hasPermission (state (snd (handleWebViewMessage ev h))) =
  hasPermission (state h).
Proof.
  rewrite handle_eval; cbv zeta.
  repeat match goal with
         | |- context [match ?x with _ => _ end] => destruct x
         end; reflexivity.
Qed.

(** ** Steps of a session *)

(** The callbacks other than [handleWebViewMessage] only write to the
    console. *)
Lemma deliver_state (e : Event) (h : Host) :
  (forall o, e <> PermissionSettled o) ->
  (forall ev, e <> Message ev) ->
  state (snd (deliver e h)) = state h.
Proof.
  intros Hp Hm. destruct e; try reflexivity.
  - now elim (Hp o).
  - now elim (Hm event).
Qed.

Lemma step_settled (s : Session) (o : Settlement PermissionResponse)
      (s' : Session) :
  step s (PermissionSettled o) = Next s' ->
  request s = Pending /\
  s' = mkSession (snd (permissionEffect o (host s))) Settled.
Proof.
  unfold step; simpl. destruct (request s); [|discriminate].
  intros H; inversion H; auto.
Qed.

Lemma step_callback (s : Session) (e : Event) (c : Callback) (s' : Session) :
  callback_of e = Some c ->
  step s e = Next s' ->
  wired c (App (state (host s))) = true /\
  s' = mkSession (snd (deliver e (host s))) (request s).
Proof.
  unfold step; intros ->.
  destruct (wired c _); [|discriminate].
  destruct (deliver e (host s)) as [[[]|ex] h']; [|discriminate].
  intros H; inversion H; auto.
Qed.

(** No callback is passed to anything unless permission was granted. *)
Lemma wired_granted (c : Callback) (st : AppState) :
  wired c (App st) = true -> hasPermission st = Some true.
Proof.
  unfold App. destruct (hasPermission st) as [[|]|]; [reflexivity| |];
    destruct c; discriminate.
Qed.

Lemma permissionEffect_showCamera (o : Settlement PermissionResponse)
      (h : Host) :
  showCamera (state (snd (permissionEffect o h))) = showCamera (state h).
Proof. destruct o; reflexivity. Qed.

(** ** C1 *)

(** C1. [showCamera] starts as [false].  A message delivered to
    [handleWebViewMessage] leaves it [true] if the message is JSON whose
    [action] is the string SHOW_CAMERA, [false] if it is HIDE_CAMERA, and
    as it was otherwise.  In a session no other event changes it: a step
    that changes [showCamera] is the delivery of a SHOW_CAMERA message
    when the new value is [true], of a HIDE_CAMERA message when it is
    [false]. *)
Theorem showCamera_writers :
  showCamera initialState = false /\
  (forall ev h,
      showCamera (state (snd (handleWebViewMessage ev h))) =
      camera_after (data (nativeEvent ev)) (showCamera (state h))) /\
  (forall s e s',
      step s e = Next s' ->
      camera s' <> camera s ->
      exists ev,
        e = Message ev /\
        has_action (data (nativeEvent ev))
                   (if camera s' then js "SHOW_CAMERA" else js "HIDE_CAMERA")
        = true).
Proof.
  split; [reflexivity|]. split; [exact handle_showCamera|].
  intros s e s' Hstep Hne.
  destruct e as [o|ev|ne|code| | |url].
  - apply step_settled in Hstep as [_ ->].
    unfold camera in Hne; simpl in Hne.
    now rewrite permissionEffect_showCamera in Hne.
  - exists ev; split; [reflexivity|].
    apply (step_callback _ _ HandleWebViewMessage) in Hstep as [_ ->];
      [|reflexivity].
    unfold camera in *; simpl in *.
    rewrite handle_showCamera in *.
    unfold camera_after in *.
    destruct (has_action _ (js "SHOW_CAMERA")) eqn:Eshow; [exact Eshow|].
    destruct (has_action _ (js "HIDE_CAMERA")) eqn:Ehide; [exact Ehide|].
    now elim Hne.
  - apply (step_callback _ _ OnError) in Hstep as [_ ->]; [|reflexivity].
    now elim Hne.
  - apply (step_callback _ _ OnHttpError) in Hstep as [_ ->]; [|reflexivity].
    now elim Hne.
  - apply (step_callback _ _ OnLoadStart) in Hstep as [_ ->]; [|reflexivity].
    now elim Hne.
  - apply (step_callback _ _ OnLoadEnd) in Hstep as [_ ->]; [|reflexivity].
    now elim Hne.
  - apply (step_callback _ _ OnShouldStartLoadWithRequest) in Hstep as [_ ->];
      [|reflexivity].
    now elim Hne.
Qed.

Lemma showCamera_writers_witness :
  let s := grantedSession in
  let e := Message (event_of showMessage) in
  let s' := mkSession (snd (deliver e (host s))) Settled in
  step s e = Next s' /\
  camera s' <> camera s /\
  exists ev,
    e = Message ev /\
    has_action (data (nativeEvent ev))
               (if camera s' then js "SHOW_CAMERA" else js "HIDE_CAMERA")
    = true.
Proof.
  cbv zeta.
  split; [vm_compute; reflexivity|].
  split; [vm_compute; discriminate|].
  apply (proj2 (proj2 showCamera_writers) grantedSession).
  - vm_compute; reflexivity.
  - vm_compute; discriminate.
Defined.

(** ** C4 *)

(** C4. A message that [JSON.parse] rejects makes [handleWebViewMessage]
    return normally; the console gets the message twice, once as received
    and once as non-JSON, and the state is what it was. *)
Theorem malformed_message_logged (ev : MessageEvent) (h : Host) :
  JSON_parse (data (nativeEvent ev)) = None ->
  handleWebViewMessage ev h =
  (inl tt,
   mkHost (state h)
          (console h ++ [received (data (nativeEvent ev));
                         nonJson (data (nativeEvent ev))])).
Proof.
  intros Hparse. rewrite handle_eval; cbv zeta. rewrite Hparse.
  now rewrite <- app_assoc.
Qed.

Lemma malformed_message_logged_witness :
  let ev := event_of (js "hello") in
  let h := host grantedSession in
  JSON_parse (data (nativeEvent ev)) = None /\
  handleWebViewMessage ev h =
  (inl tt,
   mkHost (state h) (console h ++ [received (js "hello"); nonJson (js "hello")])).
Proof.
  cbv zeta. split; [vm_compute; reflexivity|].
  apply (malformed_message_logged (event_of (js "hello")) (host grantedSession)).
  vm_compute; reflexivity.
Defined.

(** ** C8 *)

(** X2.  A message that parses to a value other than [null], with an [action]
    that is none of the three commands, is ignored: nothing but the
    received line reaches the console and the state is what it was. *)
Lemma unrecognised_action_ignored (ev : MessageEvent) (h : Host)
      (v a : JSValue) :
  JSON_parse (data (nativeEvent ev)) = Some v ->
  get_property v (js "action") = Some a ->
  a <> JString (js "SHOW_CAMERA") ->
  a <> JString (js "HIDE_CAMERA") ->
  a <> JString (js "BUTTON_CLICKED") ->
  handleWebViewMessage ev h =
  (inl tt, mkHost (state h) (console h ++ [received (data (nativeEvent ev))])).
Proof.
  intros Hparse Hget Hs Hh Hb. rewrite handle_eval; cbv zeta.
  rewrite Hparse, Hget.
  destruct (strict_eq_string a (js "SHOW_CAMERA")) eqn:E1;
    [apply strict_eq_string_eq in E1; contradiction|].
  destruct (strict_eq_string a (js "HIDE_CAMERA")) eqn:E2;
    [apply strict_eq_string_eq in E2; contradiction|].
  destruct (strict_eq_string a (js "BUTTON_CLICKED")) eqn:E3;
    [apply strict_eq_string_eq in E3; contradiction|].
  reflexivity.
Qed.

(** C8, at the message [null].  The text [null] is JSON: [JSON.parse]
    returns [null].  Reading [action] of it throws inside the [try], so
    the handler reports the message on the console as non-JSON.  The state
    is what it was and the handler returns normally. *)
Theorem null_message_reported_non_json (h : Host) :
  JSON_parse (js "null") = Some JNull /\
  get_property JNull (js "action") = None /\
  handleWebViewMessage (event_of (js "null")) h =
  (inl tt,
   mkHost (state h)
          (console h ++ [received (js "null"); nonJson (js "null")])).
Proof.
  split; [vm_compute; reflexivity|]. split; [reflexivity|].
  rewrite handle_eval; cbv zeta.
  replace (JSON_parse (data (nativeEvent (event_of (js "null")))))
    with (Some JNull) by (vm_compute; reflexivity).
  simpl get_property. cbv iota.
  now rewrite <- app_assoc.
Qed.

(** ** C9 *)

(** C9. [handleWebViewMessage] never changes [hasPermission]; a message
    step of a session changes neither [hasPermission] nor the state of
    the permission request. *)
Theorem message_keeps_permission :
  (forall ev h,
      hasPermission (state (snd (handleWebViewMessage ev h))) =
      hasPermission (state h)) /\
  (forall s ev s',
      step s (Message ev) = Next s' ->
      permission s' = permission s /\ request s' = request s).
Proof.
  split; [exact handle_hasPermission|].
  intros s ev s' Hstep.
  apply (step_callback _ _ HandleWebViewMessage) in Hstep as [_ ->];
    [|reflexivity].
  split; [apply handle_hasPermission | reflexivity].
Qed.

Lemma message_keeps_permission_witness :
  let s := grantedSession in
  let ev := event_of showMessage in
  let s' := mkSession (snd (handleWebViewMessage ev (host s))) Settled in
  step s (Message ev) = Next s' /\
  permission s' = permission s /\ request s' = request s.
Proof.
  cbv zeta. split; [vm_compute; reflexivity|].
  apply (proj2 message_keeps_permission grantedSession (event_of showMessage)).
  vm_compute; reflexivity.
Defined.

(** ** C10 *)

(** C10. For a SHOW_CAMERA or HIDE_CAMERA message, [showCamera] after the
    handler is [true] for SHOW_CAMERA and [false] for HIDE_CAMERA from
    whatever host it ran in, and handling the message a second time
    leaves the state the first handling produced. *)
Theorem show_hide_idempotent (ev : MessageEvent) (h h0 : Host) :
  has_action (data (nativeEvent ev)) (js "SHOW_CAMERA") = true \/
  has_action (data (nativeEvent ev)) (js "HIDE_CAMERA") = true ->
  let once := snd (handleWebViewMessage ev h) in
  let twice := snd (handleWebViewMessage ev once) in
  state twice = state once /\
  showCamera (state once) =
    has_action (data (nativeEvent ev)) (js "SHOW_CAMERA") /\
  showCamera (state (snd (handleWebViewMessage ev h0))) =
    showCamera (state once).
Proof.
  intros Hact; cbv zeta.
  assert (Hst : forall x, state (snd (handleWebViewMessage ev x)) =
                          mkAppState (hasPermission (state x))
                            (has_action (data (nativeEvent ev))
                                        (js "SHOW_CAMERA"))).
  { intros x.
    pose proof (handle_hasPermission ev x) as Hp.
    pose proof (handle_showCamera ev x) as Hc.
    destruct (state (snd (handleWebViewMessage ev x))) as [p c].
    simpl in Hp, Hc. subst p c. f_equal.
    unfold camera_after.
    destruct Hact as [-> | Hhide]; [reflexivity|].
    rewrite Hhide.
    destruct (has_action _ (js "SHOW_CAMERA")); reflexivity. }
  rewrite !Hst; simpl; auto.
Qed.

Lemma show_hide_idempotent_witness :
  let ev := event_of hideMessage in
  let h := host (sessionWith (Some true) true Settled) in
  let once := snd (handleWebViewMessage ev h) in
  let twice := snd (handleWebViewMessage ev once) in
  (has_action (data (nativeEvent ev)) (js "SHOW_CAMERA") = true \/
   has_action (data (nativeEvent ev)) (js "HIDE_CAMERA") = true) /\
  state twice = state once /\
  showCamera (state once) = false /\
  showCamera (state (snd (handleWebViewMessage ev (host grantedSession)))) =
    showCamera (state once).
Proof.
  cbv zeta. split; [right; vm_compute; reflexivity|].
  apply (show_hide_idempotent (event_of hideMessage)
           (host (sessionWith (Some true) true Settled)) (host grantedSession)).
  right; vm_compute; reflexivity.
Defined.

(** ** C6 *)

Lemma run_messages_nil (s : Session) (posts : list jsstring) (s' : Session) :
  (forall ev, step s (Message ev) = NotEnabled) ->
  run s (messages posts) = Some s' -> posts = [] /\ s' = s.
Proof.
  intros Hoff. destruct posts as [|m posts]; simpl.
  - intros H; inversion H; auto.
  - now rewrite Hoff.
Qed.

(** C6. With permission denied [App] returns the denial view, whatever
    [showCamera] is; that view contains no [WebView] and passes no
    callback to anything, so no message step is enabled and a run of
    message deliveries is the empty run.  With permission unknown [App]
    returns the loading view. *)
Theorem denied_view_has_no_bridge (s : Session) :
  (permission s = Some false ->
   App (state (host s)) = denialView /\
   mounted "WebView" (App (state (host s))) = false /\
   (forall c, wired c (App (state (host s))) = false) /\
   (forall ev, step s (Message ev) = NotEnabled) /\
   (forall posts s', run s (messages posts) = Some s' -> posts = [] /\ s' = s))
  /\
  (permission s = None -> App (state (host s)) = loadingView).
Proof.
  unfold permission. split; intros Hp.
  - assert (Happ : App (state (host s)) = denialView)
      by (unfold App; now rewrite Hp).
    assert (Hoff : forall ev, step s (Message ev) = NotEnabled)
      by (intros ev; unfold step; simpl callback_of; now rewrite Happ).
    rewrite Happ.
    split; [reflexivity|]. split; [reflexivity|].
    split; [intros c; destruct c; reflexivity|].
    split; [exact Hoff|].
    intros posts s'. now apply run_messages_nil.
  - unfold App; now rewrite Hp.
Qed.

Lemma denied_view_has_no_bridge_witness :
  let denied := sessionWith (Some false) true Settled in
  (permission denied = Some false /\
   App (state (host denied)) = denialView /\
   mounted "WebView" (App (state (host denied))) = false /\
   step denied (Message (event_of showMessage)) = NotEnabled) /\
  (permission initialSession = None /\
   App (state (host initialSession)) = loadingView).
Proof.
  cbv zeta. split.
  - split; [reflexivity|].
    destruct (proj1 (denied_view_has_no_bridge
                       (sessionWith (Some false) true Settled)) eq_refl)
      as (Hview & Hmount & _ & Hoff & _).
    split; [exact Hview|]. split; [exact Hmount | apply Hoff].
  - split; [reflexivity|].
    exact (proj2 (denied_view_has_no_bridge initialSession) eq_refl).
Defined.

(** ** C7 and C3: the permission state *)

(** A callback step changes neither the permission nor the request. *)
Lemma step_callback_permission (s : Session) (e : Event) (c : Callback)
      (s' : Session) :
  callback_of e = Some c ->
  step s e = Next s' ->
  permission s' = permission s /\ request s' = request s.
Proof.
  intros Hc Hstep. destruct (step_callback _ _ _ _ Hc Hstep) as [_ ->].
  split; [|reflexivity]. unfold permission; simpl.
  destruct e; try discriminate; try reflexivity.
  apply handle_hasPermission.
Qed.

(** Once the request is settled, nothing writes the permission. *)
Lemma settled_step (s : Session) (e : Event) (s' : Session) :
  request s = Settled ->
  step s e = Next s' ->
  permission s' = permission s /\ request s' = Settled.
Proof.
  intros Hset Hstep. destruct (callback_of e) as [c|] eqn:Hc.
  - destruct (step_callback_permission _ _ _ _ Hc Hstep) as [Hp Hr].
    split; congruence.
  - unfold step in Hstep. rewrite Hc, Hset in Hstep. discriminate.
Qed.

Lemma settled_run (es : list Event) (s s' : Session) :
  request s = Settled ->
  run s es = Some s' ->
  permission s' = permission s /\ request s' = Settled.
Proof.
  revert s. induction es as [|e es IH]; simpl; intros s Hset Hrun.
  - inversion Hrun; subst; auto.
  - destruct (step s e) as [s1| |] eqn:Hstep; try discriminate.
    destruct (settled_step _ _ _ Hset Hstep) as [Hp Hr].
    destruct (IH _ Hr Hrun) as [Hp' Hr']. split; congruence.
Qed.

Lemma known_after_settled_step (s : Session) (e : Event) (s' : Session) :
  known_after_settled s -> step s e = Next s' -> known_after_settled s'.
Proof.
  unfold known_after_settled. intros Hinv Hstep Hknown.
  destruct (callback_of e) as [c|] eqn:Hc.
  - destruct (step_callback_permission _ _ _ _ Hc Hstep) as [Hp Hr].
    rewrite Hr. apply Hinv. congruence.
  - destruct e; try discriminate.
    now apply step_settled in Hstep as [_ ->].
Qed.

Lemma known_after_settled_run (es : list Event) (s s' : Session) :
  known_after_settled s -> run s es = Some s' -> known_after_settled s'.
Proof.
  revert s. induction es as [|e es IH]; simpl; intros s Hinv Hrun.
  - inversion Hrun; subst; auto.
  - destruct (step s e) as [s1| |] eqn:Hstep; try discriminate.
    eauto using known_after_settled_step.
Qed.

Lemma transitions_settled (es : list Event) (s : Session) :
  request s = Settled -> transitions s es = 0%nat.
Proof.
  revert s. induction es as [|e es IH]; simpl; intros s Hset; [reflexivity|].
  destruct (step s e) as [s1| |] eqn:Hstep; try reflexivity.
  destruct (settled_step _ _ _ Hset Hstep) as [Hp Hr].
  rewrite Hp, (IH _ Hr).
  destruct (permission s) as [[|]|]; reflexivity.
Qed.

Lemma transitions_at_most_one (es : list Event) (s : Session) :
  (transitions s es <= 1)%nat.
Proof.
  revert s. induction es as [|e es IH]; simpl; intros s; [lia|].
  destruct (step s e) as [s1| |] eqn:Hstep; try lia.
  destruct (callback_of e) as [c|] eqn:Hc.
  - destruct (step_callback_permission _ _ _ _ Hc Hstep) as [Hp _].
    rewrite Hp. specialize (IH s1).
    destruct (permission s) as [[|]|]; simpl; lia.
  - destruct e; try discriminate.
    apply step_settled in Hstep as [_ ->].
    rewrite transitions_settled by reflexivity.
    destruct (permission_eqb _ _); simpl; lia.
Qed.

(** The request settling: what it writes. *)
Lemma settle_permission (s : Session) (o : Settlement PermissionResponse)
      (s' : Session) :
  step s (PermissionSettled o) = Next s' ->
  permission s' =
  match o with
  | Fulfilled r => Some (jsstring_eqb (status r) (js "granted"))
  | Rejected => permission s
  end.
Proof.
  intros Hstep. apply step_settled in Hstep as [_ ->].
  destruct o; reflexivity.
Qed.

(** C7. [hasPermission] starts as [null].  Along every run from the
    start it changes at most once.  In a session reached by such a run, a
    step that changes it is the fulfilment of the permission request, is
    taken from [null], and writes whether the status is 'granted'; and
    once it is [true] or [false] it keeps that value through every
    further run. *)
Theorem permission_written_once (es : list Event) (s : Session) :
  run initialSession es = Some s ->
  permission initialSession = None /\
  (transitions initialSession es <= 1)%nat /\
  (forall e s',
      step s e = Next s' ->
      permission s' <> permission s ->
      permission s = None /\
      exists r,
        e = PermissionSettled (Fulfilled r) /\
        permission s' = Some (jsstring_eqb (status r) (js "granted"))) /\
  (forall b es' s',
      permission s = Some b ->
      run s es' = Some s' ->
      permission s' = Some b).
Proof.
  intros Hrun.
  assert (Hinv : known_after_settled s).
  { apply (known_after_settled_run es initialSession); [|exact Hrun].
    intros H; now elim H. }
  split; [reflexivity|]. split; [apply transitions_at_most_one|]. split.
  - intros e s' Hstep Hne.
    destruct (callback_of e) as [c|] eqn:Hc.
    + destruct (step_callback_permission _ _ _ _ Hc Hstep) as [Hp _].
      contradiction.
    + destruct e as [o| | | | | |]; try discriminate.
      pose proof (settle_permission _ _ _ Hstep) as Hw.
      destruct (step_settled _ _ _ Hstep) as [Hpend _].
      split.
      * destruct (permission s) eqn:E; [|reflexivity].
        assert (request s = Settled) by (apply Hinv; congruence).
        congruence.
      * destruct o as [r|]; [eauto | contradiction].
  - intros b es' s' Hb Hrun'.
    assert (Hset : request s = Settled) by (apply Hinv; congruence).
    destruct (settled_run _ _ _ Hset Hrun') as [Hp _]. congruence.
Qed.

Lemma permission_written_once_witness :
  let s := session_after grantedRun in
  run initialSession grantedRun = Some s /\
  permission s = Some true /\
  (transitions initialSession grantedRun <= 1)%nat /\
  (forall es' s', run s es' = Some s' -> permission s' = Some true).
Proof.
  cbv zeta.
  assert (Hrun : run initialSession grantedRun = Some (session_after grantedRun))
    by (vm_compute; reflexivity).
  destruct (permission_written_once grantedRun (session_after grantedRun) Hrun)
    as (_ & Hone & _ & Hkeep).
  split; [exact Hrun|]. split; [vm_compute; reflexivity|].
  split; [exact Hone|].
  intros es' s'. apply Hkeep. vm_compute; reflexivity.
Defined.

(** C3 as stated fails: when the permission request is rejected, the
    first step of the session leaves [hasPermission] at [null], and so
    does every run after it. *)
Lemma rejected_request_stays_unknown :
  exists s,
    step initialSession (PermissionSettled Rejected) = Next s /\
    permission s = None /\
    permission s <> Some false /\
    forall es s', run s es = Some s' -> permission s' = None.
Proof.
  exists (sessionWith None false Settled).
  split; [reflexivity|]. split; [reflexivity|]. split; [discriminate|].
  intros es s' Hrun.
  now destruct (settled_run es (sessionWith None false Settled) s' eq_refl Hrun)
    as [-> _].
Qed.

(** C3, amended.  When the request settles: if it is fulfilled,
    [hasPermission] becomes [true] for the status 'granted' and [false]
    for every other status, so it is no longer [null]; if it is rejected,
    [hasPermission] keeps its value.  Either way no later event writes
    it. *)
Theorem permission_after_settlement (s : Session)
        (o : Settlement PermissionResponse) (s' : Session) :
  step s (PermissionSettled o) = Next s' ->
  match o with
  | Fulfilled r =>
      permission s' = Some (jsstring_eqb (status r) (js "granted")) /\
      permission s' <> None
  | Rejected => permission s' = permission s
  end /\
  (forall es s'', run s' es = Some s'' -> permission s'' = permission s').
Proof.
  intros Hstep. split.
  - rewrite (settle_permission _ _ _ Hstep).
    destruct o; [split; [reflexivity | discriminate] | reflexivity].
  - intros es s'' Hrun.
    destruct (step_settled _ _ _ Hstep) as [_ ->].
    now destruct (settled_run es (mkSession (snd (permissionEffect o (host s)))
                                             Settled) s'' eq_refl Hrun).
Qed.

Lemma permission_after_settlement_witness :
  let denied := mkResponse (js "denied") in
  let s' := sessionWith (Some false) false Settled in
  step initialSession (PermissionSettled (Fulfilled denied)) = Next s' /\
  (permission s' = Some false /\ permission s' <> None) /\
  (forall es s'', run s' es = Some s'' -> permission s'' = permission s').
Proof.
  cbv zeta. split; [vm_compute; reflexivity|].
  apply (permission_after_settlement initialSession
           (Fulfilled (mkResponse (js "denied")))).
  vm_compute; reflexivity.
Defined.

(** ** Facts about [JSON.parse] and [JSON.stringify] *)

Module JsonFacts.
Import Json.

Lemma skip_ws_length (s : jsstring) :
  (List.length (skip_ws s) <= List.length s)%nat.
Proof.
  induction s as [|c s IH]; simpl; [lia|].
  destruct (is_ws c); simpl; lia.
Qed.

Lemma skip_ws_cons (s : jsstring) (c : N) (r : jsstring) :
  skip_ws s = c :: r -> (List.length r < List.length s)%nat.
Proof.
  intros H. pose proof (skip_ws_length s) as L. rewrite H in L.
  simpl in L. lia.
Qed.

Lemma expect_length (lit s r : jsstring) :
  expect lit s = Some r -> (List.length r <= List.length s)%nat.
Proof.
  revert s. induction lit as [|l lit IH]; intros [|c s]; simpl;
    try discriminate.
  - intros H; inversion H; simpl; lia.
  - intros H; inversion H; simpl; lia.
  - destruct (l =? c); [|discriminate]. intros H. apply IH in H. lia.
Qed.

Lemma take_digits_length (s : jsstring) :
  (List.length (fst (take_digits s)) + List.length (snd (take_digits s))
   = List.length s)%nat.
Proof.
  induction s as [|c s IH]; simpl; [reflexivity|].
  destruct (is_digit c); [|reflexivity].
  destruct (take_digits s) as [ds rest]; simpl in *. lia.
Qed.

Lemma digits1_length (s ds r : jsstring) :
  digits1 s = Some (ds, r) -> (List.length r < List.length s)%nat.
Proof.
  unfold digits1. pose proof (take_digits_length s) as L.
  destruct (take_digits s) as [[|d ds'] rest]; [discriminate|].
  intros H; inversion H; subst. simpl in L. lia.
Qed.

Lemma lex_number_length (s l r : jsstring) :
  lex_number s = Some (l, r) -> (List.length r < List.length s)%nat.
Proof.
  assert (Hint : forall s i r, lex_int s = Some (i, r) ->
                               (List.length r < List.length s)%nat).
  { intros [|c t] i r0; simpl; [discriminate|].
    destruct (c =? 48); [intros H; inversion H; subst; simpl; lia|].
    destruct (is_digit c); [|discriminate].
    intros H. apply digits1_length in H. exact H. }
  assert (Hfrac : forall s f r, lex_frac s = Some (f, r) ->
                                (List.length r <= List.length s)%nat).
  { intros [|c t] f r0; simpl; [intros H; inversion H; simpl; lia|].
    destruct (c =? 46); [|intros H; inversion H; simpl; lia].
    destruct (digits1 t) as [[ds rest]|] eqn:E; [|discriminate].
    apply digits1_length in E. intros H; inversion H; subst. lia. }
  assert (Hexp : forall s e r, lex_exp s = Some (e, r) ->
                               (List.length r <= List.length s)%nat).
  { intros [|c t] e r0; simpl; [intros H; inversion H; simpl; lia|].
    destruct ((c =? 101) || (c =? 69)); [|intros H; inversion H; simpl; lia].
    destruct t as [|sg t']; [discriminate|].
    destruct ((sg =? 43) || (sg =? 45)).
    - destruct (digits1 t') as [[ds rest]|] eqn:E; [|discriminate].
      apply digits1_length in E. intros H; inversion H; subst. simpl; lia.
    - destruct (digits1 (sg :: t')) as [[ds rest]|] eqn:E; [|discriminate].
      apply digits1_length in E. intros H; inversion H; subst.
      simpl in *; lia. }
  assert (Huns : forall s l r, lex_unsigned s = Some (l, r) ->
                               (List.length r < List.length s)%nat).
  { intros t l0 r0. unfold lex_unsigned.
    destruct (lex_int t) as [[i r1]|] eqn:Ei; [|discriminate].
    destruct (lex_frac r1) as [[f r2]|] eqn:Ef; [|discriminate].
    destruct (lex_exp r2) as [[e r3]|] eqn:Ee; [|discriminate].
    apply Hint in Ei. apply Hfrac in Ef. apply Hexp in Ee.
    intros H; inversion H; subst. lia. }
  destruct s as [|c t]; simpl; [discriminate|].
  destruct (c =? 45).
  - destruct (lex_unsigned t) as [[l0 rest]|] eqn:E; [|discriminate].
    apply Huns in E. intros H; inversion H; subst. lia.
  - intros H. apply Huns in H. exact H.
Qed.

Lemma lex_string_length (s cs r : jsstring) :
  lex_string s = Some (cs, r) -> (List.length r < List.length s)%nat.
Proof.
  remember (List.length s) as n eqn:Hn.
  revert s cs r Hn. induction n as [n IH] using lt_wf_ind.
  intros [|c t] cs r Hn; simpl; [discriminate|].
  destruct (c =? 34); [intros H; inversion H; subst; simpl; lia|].
  destruct (c =? 92).
  - destruct t as [|e t']; [discriminate|].
    destruct (e =? 117).
    + destruct t' as [|h1 [|h2 [|h3 [|h4 t'']]]]; try discriminate.
      destruct (hex4 h1 h2 h3 h4); [|discriminate].
      destruct (lex_string t'') as [[cs' rest]|] eqn:E; [|discriminate].
      apply (IH (List.length t'')) in E; [|subst; simpl; lia|reflexivity].
      intros H; inversion H; subst. simpl; lia.
    + destruct (simple_escape e); [|discriminate].
      destruct (lex_string t') as [[cs' rest]|] eqn:E; [|discriminate].
      apply (IH (List.length t')) in E; [|subst; simpl; lia|reflexivity].
      intros H; inversion H; subst. simpl; lia.
  - destruct (c <? 32); [discriminate|].
    destruct (lex_string t) as [[cs' rest]|] eqn:E; [|discriminate].
    apply (IH (List.length t)) in E; [|subst; simpl; lia|reflexivity].
    intros H; inversion H; subst. simpl; lia.
Qed.

(** *** Plain strings survive [JSON.stringify] and [JSON.parse] *)

Lemma is_plain_spec (c : N) :
  is_plain c = true <-> 32 <= c /\ c <> 34 /\ c <> 92 /\ c < 55296.
Proof.
  unfold is_plain.
  rewrite !andb_true_iff, !negb_true_iff, !N.eqb_neq, N.leb_le, N.ltb_lt.
  tauto.
Qed.

Lemma quote_units_plain (s : jsstring) :
  plain s = true -> Stringify.quote_units s = s.
Proof.
  induction s as [|c s IH]; simpl; [reflexivity|].
  rewrite andb_true_iff, is_plain_spec. intros [(H32 & H34 & H92 & Hs) Hr].
  unfold Stringify.is_lead, Stringify.is_trail, Stringify.quote_unit.
  replace (55296 <=? c) with false by (symmetry; apply N.leb_gt; lia).
  replace (56320 <=? c) with false by (symmetry; apply N.leb_gt; lia).
  simpl.
  repeat match goal with
         | |- context [?x =? ?y] =>
             replace (x =? y) with false by (symmetry; apply N.eqb_neq; lia)
         end.
  replace (c <? 32) with false by (symmetry; apply N.ltb_ge; lia).
  simpl. now rewrite IH.
Qed.

Lemma quote_plain (s : jsstring) :
  plain s = true -> Stringify.quote s = 34 :: s ++ [34].
Proof. intros H. unfold Stringify.quote. now rewrite quote_units_plain. Qed.

Lemma lex_string_plain (s rest : jsstring) :
  plain s = true -> lex_string (s ++ 34 :: rest) = Some (s, rest).
Proof.
  induction s as [|c s IH]; [reflexivity|].
  simpl plain. rewrite andb_true_iff, is_plain_spec.
  intros [(H32 & H34 & H92 & Hs) Hr].
  change ((c :: s) ++ 34 :: rest) with (c :: (s ++ 34 :: rest)).
  cbn [lex_string].
  replace (c =? 34) with false by (symmetry; apply N.eqb_neq; lia).
  replace (c =? 92) with false by (symmetry; apply N.eqb_neq; lia).
  replace (c <? 32) with false by (symmetry; apply N.ltb_ge; lia).
  now rewrite IH.
Qed.

Lemma value_string (fuel : nat) (s rest : jsstring) :
  plain s = true ->
  (0 < fuel)%nat ->
  value fuel (34 :: s ++ 34 :: rest) = Parsed (JString s) rest.
Proof.
  intros H Hfuel. destruct fuel as [|fuel]; [lia|]. cbn [value]. change (skip_ws (34 :: s ++ 34 :: rest))
    with (34 :: s ++ 34 :: rest).
  cbv iota. change (34 =? 123) with false. change (34 =? 91) with false.
  change (34 =? 34) with true. cbv iota.
  now rewrite lex_string_plain.
Qed.

Lemma properties_cons (k v : jsstring) (ps : list (jsstring * jsstring))
      (rest : jsstring) :
  plain k = true -> plain v = true ->
  Stringify.properties ((k, v) :: ps) ++ 125 :: rest =
  34 :: k ++ 34 :: 58 :: 34 :: v ++ 34 ::
    match ps with
    | [] => 125 :: rest
    | _ :: _ => 44 :: Stringify.properties ps ++ 125 :: rest
    end.
Proof.
  intros Hk Hv.
  destruct ps as [|[k' v'] ps']; cbn [Stringify.properties];
    rewrite !quote_plain by assumption; simpl;
    repeat (rewrite <- app_assoc; simpl); reflexivity.
Qed.

(** The member parser reads back the properties [JSON.stringify] wrote. *)
Lemma members_properties (ps : list (jsstring * jsstring)) :
  forall fuel k v rest,
    plain_properties ((k, v) :: ps) = true ->
    (S (List.length ps) < fuel)%nat ->
    members fuel (Stringify.properties ((k, v) :: ps) ++ 125 :: rest) =
    Parsed (map (fun p => (fst p, JString (snd p))) ((k, v) :: ps)) rest.
Proof.
  induction ps as [|[k' v'] ps IH]; intros fuel k v rest Hplain Hfuel;
    destruct fuel as [|fuel]; try (simpl in Hfuel; lia);
    cbn [plain_properties forallb fst snd] in Hplain;
    apply andb_true_iff in Hplain as [Hkv Hps];
    apply andb_true_iff in Hkv as [Hk Hv];
    rewrite properties_cons by assumption;
    cbn [members]; change (skip_ws (34 :: ?x)) with (34 :: x);
    cbv match; change (34 =? 34) with true; cbv match;
    rewrite lex_string_plain by assumption;
    change (skip_ws (58 :: ?x)) with (58 :: x);
    cbv match; change (58 =? 58) with true; cbv match;
    rewrite value_string by (assumption || (simpl in Hfuel; lia)).
  - reflexivity.
  - change (skip_ws (44 :: ?x)) with (44 :: x).
    cbv match. change (44 =? 44) with true. cbv match.
    rewrite (IH fuel k' v' rest Hps) by (simpl in Hfuel |- *; lia).
    reflexivity.
Qed.

Lemma properties_length (ps : list (jsstring * jsstring)) :
  (List.length ps <= List.length (Stringify.properties ps))%nat.
Proof.
  induction ps as [|[k v] [|p ps] IH]; simpl in *;
    rewrite ?length_app; simpl; rewrite ?length_app; simpl; lia.
Qed.

(** What the script stringifies, the host parses back. *)
Lemma parse_stringify (ps : list (jsstring * jsstring)) :
  plain_properties ps = true ->
  JSON_parse (JSON_stringify ps) = Some (object_of ps).
Proof.
  intros Hplain. destruct ps as [|[k v] ps]; [reflexivity|].
  unfold JSON_parse, JSON_stringify, fuel_for.
  pose proof (properties_length ((k, v) :: ps)) as Hlen.
  remember (Stringify.properties ((k, v) :: ps)) as text eqn:Htext.
  replace (2 * List.length (123%N :: text ++ [125%N]) + 1)%nat
    with (S (2 * List.length text + 4))%nat
    by (simpl; rewrite length_app; simpl; lia).
  assert (Hshape : exists rest, text ++ [125] = 34 :: rest).
  { subst text. apply andb_true_iff in Hplain as [Hkv _].
    apply andb_true_iff in Hkv as [Hk Hv]. simpl in Hk, Hv.
    rewrite properties_cons by assumption. eauto. }
  destruct Hshape as [rest Hshape].
  cbn [value]. change (skip_ws (123 :: ?x)) with (123 :: x).
  cbv match. change (123 =? 123) with true. cbv match.
  rewrite Hshape. change (skip_ws (34 :: rest)) with (34 :: rest).
  cbv match. change (34 =? 125) with false. cbv match.
  rewrite <- Hshape. subst text.
  rewrite members_properties by (simpl in *; (assumption || lia)).
  reflexivity.
Qed.

Ltac leaf :=
  split; [discriminate
         | intros ? ? HP; inversion HP; subst; simpl in *; lia].

Ltac call IH arg :=
  let Hne := fresh "Hne" in
  let Hlen := fresh "Hlen" in
  let E := fresh "E" in
  destruct (IH arg ltac:(simpl in *; lia)) as [Hne Hlen];
  match goal with
  | |- context [match ?p with Parsed _ _ => _ | SyntaxErr => _
                         | OutOfFuel => _ end] =>
      destruct p as [? ?| |] eqn:E;
      [specialize (Hlen _ _ eq_refl) | leaf | now elim Hne]
  end.

(** *** [JSON.parse] never runs out of fuel *)

#[local] Arguments expect : simpl never.
#[local] Arguments lex_number : simpl never.
#[local] Arguments lex_string : simpl never.
#[local] Arguments skip_ws : simpl never.

(** With more than twice as much fuel as characters (one more for the
    two list parsers), a parser never runs out of fuel. *)
Lemma fuel_suffices (fuel : nat) :
  fuelled value 0 fuel /\ fuelled elements 1 fuel /\ fuelled members 1 fuel.
Proof.
  induction fuel as [|fuel (IHv & IHe & IHm)];
    [repeat split; intros; lia|].
  split; [|split]; intros s Hs; simpl.
  - destruct (skip_ws s) as [|c r] eqn:E1; [leaf|].
    apply skip_ws_cons in E1.
    destruct (c =? 123).
    { destruct (skip_ws r) as [|c' r'] eqn:E2; [leaf|].
      apply skip_ws_cons in E2.
      destruct (c' =? 125); [leaf|].
      call IHm (c' :: r'). leaf. }
    destruct (c =? 91).
    { destruct (skip_ws r) as [|c' r'] eqn:E2; [leaf|].
      apply skip_ws_cons in E2.
      destruct (c' =? 93); [leaf|].
      call IHe (c' :: r'). leaf. }
    destruct (c =? 34).
    { destruct (lex_string r) as [[cs rest]|] eqn:E2; [|leaf].
      apply lex_string_length in E2. leaf. }
    destruct (c =? 110).
    { destruct (expect (js "ull") r) as [rest|] eqn:E2; [|leaf].
      apply expect_length in E2. leaf. }
    destruct (c =? 116).
    { destruct (expect (js "rue") r) as [rest|] eqn:E2; [|leaf].
      apply expect_length in E2. leaf. }
    destruct (c =? 102).
    { destruct (expect (js "alse") r) as [rest|] eqn:E2; [|leaf].
      apply expect_length in E2. leaf. }
    destruct (lex_number (c :: r)) as [[l rest]|] eqn:E2; [|leaf].
    apply lex_number_length in E2. leaf.
  - call IHv s.
    destruct (skip_ws rest) as [|c r'] eqn:E1; [leaf|].
    apply skip_ws_cons in E1.
    destruct (c =? 44).
    { call IHe r'. leaf. }
    destruct (c =? 93); leaf.
  - destruct (skip_ws s) as [|c r] eqn:E1; [leaf|].
    apply skip_ws_cons in E1.
    destruct (c =? 34); [|leaf].
    destruct (lex_string r) as [[k r1]|] eqn:E2; [|leaf].
    apply lex_string_length in E2.
    destruct (skip_ws r1) as [|c1 r2] eqn:E3; [leaf|].
    apply skip_ws_cons in E3.
    destruct (c1 =? 58); [|leaf].
    call IHv r2.
    destruct (skip_ws rest) as [|c3 r4] eqn:E4; [leaf|].
    apply skip_ws_cons in E4.
    destruct (c3 =? 44).
    { call IHm r4. leaf. }
    destruct (c3 =? 125); leaf.
Qed.

(** [JSON_parse] fails only on a text that is not JSON, never for want
    of fuel. *)
Lemma parse_fuel (text : jsstring) :
  value (fuel_for text) text <> OutOfFuel.
Proof.
  apply (proj1 (fuel_suffices (fuel_for text))). unfold fuel_for. lia.
Qed.

End JsonFacts.

(** ** The messages of [goToScreen] *)

Lemma uint_plain (d : Decimal.uint) :
  plain (js (NilEmpty.string_of_uint d)) = true.
Proof. induction d; simpl; auto. Qed.

Lemma Number_toString_plain (n : Z) : plain (Number_toString n) = true.
Proof.
  unfold Number_toString.
  destruct (Z.to_int n) as [d|d]; simpl; destruct d;
    try reflexivity; apply (uint_plain (_ d)).
Qed.

Lemma plain_app (a b : jsstring) : plain (a ++ b) = plain a && plain b.
Proof. apply forallb_app. Qed.

Lemma stringify_console (n : Z) :
  JSON_stringify
    [(js "type", js "CONSOLE_LOG");
     (js "message",
      join [VString (js "Going to screen:"); VNumber n] (js " "))]
  = consoleMessage n.
Proof.
  unfold JSON_stringify, consoleMessage. cbn [Stringify.properties join ToString].
  pose proof (Number_toString_plain n) as Hn.
  revert Hn. generalize (Number_toString n). intros d Hd.
  rewrite !JsonFacts.quote_plain
    by (rewrite ?plain_app, ?Hd; reflexivity).
  simpl. repeat (rewrite <- app_assoc; simpl). reflexivity.
Qed.

Lemma stringify_button (n : Z) :
  JSON_stringify
    [(js "action", js "BUTTON_CLICKED");
     (js "button", js "screen_" ++ Number_toString n)]
  = buttonMessage n.
Proof.
  unfold JSON_stringify, buttonMessage. cbn [Stringify.properties].
  pose proof (Number_toString_plain n) as Hn.
  revert Hn. generalize (Number_toString n). intros d Hd.
  rewrite !JsonFacts.quote_plain
    by (rewrite ?plain_app, ?Hd; reflexivity).
  simpl. repeat (rewrite <- app_assoc; simpl). reflexivity.
Qed.

Lemma stringify_camera {S : Type} (n : Z) :
  (if (n =? 5)%Z
   then postMessage (JSON_stringify [(js "action", js "SHOW_CAMERA")])
   else postMessage (JSON_stringify [(js "action", js "HIDE_CAMERA")]))
  = @postMessage S (cameraMessage n).
Proof. unfold cameraMessage. destruct (n =? 5)%Z; reflexivity. Qed.

(** One call of the wrapper, evaluated. *)
Lemma goToScreen_eval {S : Type} (original : Global S) (n : Z) (p : Page S) :
  goToScreen original n p =
  let p' :=
    mkPage (posted p ++ [consoleMessage n; buttonMessage n; cameraMessage n])
           (pageConsole p ++ [[VString (js "Going to screen:"); VNumber n]])
           (pageState p) in
  match original with
  | GFunction f => f n p'
  | GUndefined | GOther => (inl tt, p')
  end.
Proof.
  cbv zeta. unfold goToScreen, page_console_log.
  rewrite stringify_console, stringify_button, stringify_camera.
  generalize (consoleMessage n) (buttonMessage n) (cameraMessage n).
  intros m1 m2 m3.
  cbv [bind postMessage originalLog ret posted pageConsole pageState].
  rewrite <- !app_assoc. cbn [app].
  destruct original; reflexivity.
Qed.

(** ** C5 *)

(** C5. For a safe-integer screen index [n], one call of the wrapper
    posts three texts in this order: the CONSOLE_LOG text of its own
    [console.log] call, the BUTTON_CLICKED text with button
    [screen_<n>], and the SHOW_CAMERA text if [n] is 5, the HIDE_CAMERA
    text otherwise.  It then calls the original function with [n] if there
    was one; if the original was undefined, or not a function, it returns
    normally having posted the same three texts. *)
Theorem goToScreen_posts_then_delegates {S : Type} (original : Global S)
        (n : Z) (p : Page S) :
  isSafeInteger n ->
  let p' :=
    mkPage (posted p ++
              [jsq "{'type':'CONSOLE_LOG','message':'Going to screen: "
                 ++ Number_toString n ++ jsq "'}";
               jsq "{'action':'BUTTON_CLICKED','button':'screen_"
                 ++ Number_toString n ++ jsq "'}";
               if (n =? 5)%Z
               then jsq "{'action':'SHOW_CAMERA'}"
               else jsq "{'action':'HIDE_CAMERA'}"])
           (pageConsole p ++ [[VString (js "Going to screen:"); VNumber n]])
           (pageState p) in
  goToScreen original n p =
  match original with
  | GFunction f => f n p'
  | GUndefined | GOther => (inl tt, p')
  end.
Proof.
  intros _. cbv zeta. rewrite goToScreen_eval. reflexivity.
Qed.

Lemma goToScreen_posts_then_delegates_witness :
  isSafeInteger 5 /\
  goToScreen GUndefined 5 freshPage =
  (inl tt,
   mkPage [jsq "{'type':'CONSOLE_LOG','message':'Going to screen: 5'}";
           jsq "{'action':'BUTTON_CLICKED','button':'screen_5'}";
           jsq "{'action':'SHOW_CAMERA'}"]
          [[VString (js "Going to screen:"); VNumber 5]]
          tt).
Proof.
  split; [unfold isSafeInteger; lia|].
  apply (goToScreen_posts_then_delegates GUndefined 5 freshPage).
  unfold isSafeInteger; lia.
Defined.

(** ** C2 *)

(** C2 as stated fails: the BUTTON_CLICKED message for screen 5 leaves a
    hidden camera hidden, and the one for screen 2 leaves a shown camera
    shown. *)
Lemma button_clicked_does_not_toggle :
  showCamera
    (state (snd (handleWebViewMessage
                   (event_of (jsq "{'action':'BUTTON_CLICKED','button':'screen_5'}"))
                   (mkHost (mkAppState (Some true) false) []))))
  <> true /\
  showCamera
    (state (snd (handleWebViewMessage
                   (event_of (jsq "{'action':'BUTTON_CLICKED','button':'screen_2'}"))
                   (mkHost (mkAppState (Some true) true) []))))
  <> false.
Proof. split; vm_compute; discriminate. Qed.

(** C2, amended.  A message that is JSON with [action] BUTTON_CLICKED,
    whatever its [button], makes the handler log the button and return:
    the state, [showCamera] included, is what it was. *)
Theorem button_clicked_only_logs (ev : MessageEvent) (h : Host)
        (v b : JSValue) :
  JSON_parse (data (nativeEvent ev)) = Some v ->
  get_property v (js "action") = Some (JString (js "BUTTON_CLICKED")) ->
  get_property v (js "button") = Some b ->
  handleWebViewMessage ev h =
  (inl tt,
   mkHost (state h)
          (console h ++ [received (data (nativeEvent ev));
                         logged "Button clicked:" [b]])).
Proof.
  intros Hparse Haction Hbutton. rewrite handle_eval; cbv zeta.
  rewrite Hparse, Haction, Hbutton. simpl. now rewrite <- app_assoc.
Qed.

Lemma button_clicked_only_logs_witness :
  let m := jsq "{'action':'BUTTON_CLICKED','button':'screen_5'}" in
  let v := JObject [(js "action", JString (js "BUTTON_CLICKED"));
                    (js "button", JString (js "screen_5"))] in
  let h := mkHost (mkAppState (Some true) false) [] in
  JSON_parse m = Some v /\
  handleWebViewMessage (event_of m) h =
  (inl tt,
   mkHost (mkAppState (Some true) false)
          [received m; logged "Button clicked:" [JString (js "screen_5")]]).
Proof.
  cbv zeta. split; [vm_compute; reflexivity|].
  apply (button_clicked_only_logs
           (event_of (jsq "{'action':'BUTTON_CLICKED','button':'screen_5'}"))
           (mkHost (mkAppState (Some true) false) [])
           (JObject [(js "action", JString (js "BUTTON_CLICKED"));
                     (js "button", JString (js "screen_5"))])
           (JString (js "screen_5")));
    vm_compute; reflexivity.
Defined.

(** ** From the page to the camera *)

Lemma step_message (s : Session) (ev : MessageEvent) :
  permission s = Some true ->
  step s (Message ev) =
  Next (mkSession (snd (handleWebViewMessage ev (host s))) (request s)).
Proof.
  unfold permission, step, App; simpl callback_of. intros ->.
  change (wired HandleWebViewMessage (mainView (showCamera (state (host s)))))
    with true.
  cbv match. simpl deliver.
  pose proof (handle_returns ev (host s)) as Hret.
  destruct (handleWebViewMessage ev (host s)) as [[[]|ex] h']; simpl in *;
    [reflexivity | discriminate].
Qed.

(** With permission granted every posted message is delivered, and the
    camera follows the messages in order. *)
Lemma run_messages (posts : list jsstring) (s : Session) :
  permission s = Some true ->
  exists s',
    run s (messages posts) = Some s' /\
    permission s' = Some true /\
    request s' = request s /\
    camera s' = fold_left (fun b m => camera_after m b) posts (camera s).
Proof.
  revert s. induction posts as [|m posts IH]; intros s Hp; simpl.
  - eauto.
  - rewrite step_message by assumption.
    destruct (IH (mkSession (snd (handleWebViewMessage (event_of m) (host s)))
                            (request s))) as (s' & Hrun & Hp' & Hr & Hc).
    { unfold permission in *; simpl. now rewrite handle_hasPermission. }
    exists s'. repeat split; try assumption.
    rewrite Hc. unfold camera; simpl. now rewrite handle_showCamera.
Qed.

Lemma action_of_console (n : Z) :
  action_of (consoleMessage n) = Some JUndefined.
Proof.
  unfold action_of. rewrite <- stringify_console.
  rewrite JsonFacts.parse_stringify; [reflexivity|].
  cbn [plain_properties forallb fst snd join ToString].
  now rewrite !plain_app, Number_toString_plain.
Qed.

Lemma action_of_button (n : Z) :
  action_of (buttonMessage n) = Some (JString (js "BUTTON_CLICKED")).
Proof.
  unfold action_of. rewrite <- stringify_button.
  rewrite JsonFacts.parse_stringify; [reflexivity|].
  cbn [plain_properties forallb fst snd].
  now rewrite !plain_app, Number_toString_plain.
Qed.

(** For every safe-integer screen index [n]: once the three texts that
    [goToScreen(n)] posts have been delivered to a host with permission
    granted, [showCamera] is [true] if [n] is 5 and [false] otherwise,
    whatever it was before. *)
Theorem goToScreen_drives_camera (n : Z) (s : Session) :
  isSafeInteger n ->
  permission s = Some true ->
  exists s',
    run s (messages (posted (snd (goToScreen GUndefined n freshPage))))
    = Some s' /\
    camera s' = (n =? 5)%Z /\
    permission s' = Some true.
Proof.
  intros _ Hp.
  rewrite goToScreen_eval. cbv zeta. simpl posted.
  destruct (run_messages [consoleMessage n; buttonMessage n; cameraMessage n]
                         s Hp) as (s' & Hrun & Hp' & _ & Hc).
  exists s'. split; [exact Hrun|]. split; [|exact Hp'].
  rewrite Hc. cbn [fold_left]. unfold camera_after, has_action.
  rewrite action_of_console, action_of_button.
  change (strict_eq_string JUndefined _) with false.
  change (strict_eq_string (JString (js "BUTTON_CLICKED")) (js "SHOW_CAMERA"))
    with false.
  change (strict_eq_string (JString (js "BUTTON_CLICKED")) (js "HIDE_CAMERA"))
    with false.
  cbv match. unfold cameraMessage.
  destruct (n =? 5)%Z; reflexivity.
Qed.

(** * Further properties of the host *)

(** ** No event makes the host fail *)


(** ** When a message is reported as non-JSON *)

Lemma value_defined (fuel : nat) (text : jsstring) (v : JSValue)
      (rest : jsstring) :
  Json.value fuel text = Json.Parsed v rest -> v <> JUndefined.
Proof.
  destruct fuel as [|fuel]; [discriminate|].
  cbn [Json.value].
  repeat match goal with
         | |- context [match ?x with _ => _ end] => destruct x
         end;
    intros H; inversion H; discriminate.
Qed.

Lemma JSON_parse_defined (text : jsstring) :
  JSON_parse text <> Some JUndefined.
Proof.
  unfold JSON_parse.
  destruct (Json.value (Json.fuel_for text) text) as [v rest| |] eqn:E;
    try discriminate.
  apply value_defined in E.
  destruct (Json.skip_ws rest); [congruence | discriminate].
Qed.

(** X3.  The handler ends with the console lines "received" and "non-JSON"
    exactly when the message is not a JSON text or is the JSON text
    [null]; on every other message its last line is a different one. *)
Theorem non_json_report_iff (ev : MessageEvent) (h : Host) :
  let m := data (nativeEvent ev) in
  handleWebViewMessage ev h =
    (inl tt, mkHost (state h) (console h ++ [received m; nonJson m]))
  <-> JSON_parse m = None \/ JSON_parse m = Some JNull.
Proof.
  cbv zeta. rewrite handle_eval; cbv zeta.
  pose proof (JSON_parse_defined (data (nativeEvent ev))) as Hdef.
  destruct (JSON_parse (data (nativeEvent ev))) as [v|];
    [|split; [auto | intros _; now rewrite <- app_assoc]].
  assert (Hnull : get_property v (js "action") = None <-> v = JNull).
  { destruct v; simpl; try (split; [discriminate | congruence]);
      try (now elim Hdef); [tauto|].
    destruct (own_property members (js "action"));
      split; (discriminate || congruence). }
  assert (Hbutton : forall k, get_property v (js "action") <> None ->
                              get_property v k <> None).
  { intros k Hne. destruct (get_property v (js "action")) as [a|] eqn:Ha;
      [|now elim Hne].
    destruct (get_property_some v _ k a Ha) as [y ->]. discriminate. }
  destruct (get_property v (js "action")) as [a|] eqn:Ha.
  - assert (Hv : v <> JNull) by (intros Hv; apply Hnull in Hv; discriminate).
    specialize (Hbutton (js "button") ltac:(discriminate)).
    split; [|intros [H|H]; [discriminate | congruence]].
    intros H. exfalso.
    destruct (strict_eq_string a (js "SHOW_CAMERA"));
      [|destruct (strict_eq_string a (js "HIDE_CAMERA"));
        [|destruct (strict_eq_string a (js "BUTTON_CLICKED"));
          [destruct (get_property v (js "button")); [|now elim Hbutton]|]]];
      apply (f_equal (fun r => console (snd r))) in H; simpl in H;
      rewrite <- ?app_assoc in H; apply app_inv_head in H;
      cbv in H; discriminate.
  - split; [intros _; right; f_equal; now apply Hnull|].
    intros _. now rewrite <- app_assoc.
Qed.

Lemma non_json_report_iff_witness :
  let ev := event_of (js "null") in
  let h := host grantedSession in
  (JSON_parse (js "null") = None \/ JSON_parse (js "null") = Some JNull) /\
  handleWebViewMessage ev h =
  (inl tt, mkHost (state h)
                  (console h ++ [received (js "null"); nonJson (js "null")])).
Proof.
  cbv zeta. split; [right; vm_compute; reflexivity|].
  apply (proj2 (non_json_report_iff (event_of (js "null"))
                                    (host grantedSession))).
  right; vm_compute; reflexivity.
Defined.

Lemma unrecognised_action_ignored_witness :
  let m := jsq "{'type':'CONSOLE_LOG','message':'hi'}" in
  let v := JObject [(js "type", JString (js "CONSOLE_LOG"));
                    (js "message", JString (js "hi"))] in
  let h := host grantedSession in
  JSON_parse m = Some v /\
  get_property v (js "action") = Some JUndefined /\
  handleWebViewMessage (event_of m) h =
  (inl tt, mkHost (state h) (console h ++ [received m])).
Proof.
  cbv zeta. split; [vm_compute; reflexivity|]. split; [reflexivity|].
  apply (unrecognised_action_ignored
           (event_of (jsq "{'type':'CONSOLE_LOG','message':'hi'}"))
           (host grantedSession)
           (JObject [(js "type", JString (js "CONSOLE_LOG"));
                     (js "message", JString (js "hi"))])
           JUndefined);
    try (vm_compute; reflexivity); discriminate.
Defined.

(** ** What is mounted, and when *)

Lemma session_inv_step (s : Session) (e : Event) (s' : Session) :
  session_inv s -> step s e = Next s' -> session_inv s'.
Proof.
  intros [Hknown Hcam] Hstep.
  split; [eapply known_after_settled_step; eauto|].
  destruct (callback_of e) as [c|] eqn:Hc.
  - destruct (step_callback_permission _ _ _ _ Hc Hstep) as [Hp _].
    destruct (step_callback _ _ _ _ Hc Hstep) as [Hw _].
    intros _. rewrite Hp. now apply wired_granted in Hw.
  - destruct e; try discriminate.
    destruct (step_settled _ _ _ Hstep) as [Hpend ->].
    unfold camera, permission in *; simpl.
    rewrite permissionEffect_showCamera. intros Hshown.
    specialize (Hcam Hshown).
    assert (request s = Settled) by (apply Hknown; unfold permission; congruence).
    congruence.
Qed.

Lemma session_inv_reachable (s : Session) : reachable s -> session_inv s.
Proof.
  intros [es Hrun].
  assert (Hgen : forall es s0, session_inv s0 -> run s0 es = Some s ->
                               session_inv s).
  { clear. induction es as [|e es IH]; simpl; intros s0 Hinv Hrun.
    - inversion Hrun; subst; exact Hinv.
    - destruct (step s0 e) as [s1| |] eqn:Hstep; try discriminate.
      eauto using session_inv_step. }
  apply (Hgen es initialSession); [|exact Hrun].
  split; [intros H; now elim H | discriminate].
Qed.

(** X4.  In every session the application can reach: the [WebView] is
    mounted exactly when permission is granted, the [Camera] is mounted
    exactly when [showCamera] is true, and [showCamera] is true only with
    permission granted. *)
Theorem mounted_components (s : Session) :
  reachable s ->
  mounted "WebView" (App (state (host s))) =
    permission_eqb (permission s) (Some true) /\
  mounted "Camera" (App (state (host s))) = camera s /\
  (camera s = true -> permission s = Some true).
Proof.
  intros Hreach. destruct (session_inv_reachable s Hreach) as [_ Hcam].
  unfold permission, camera, App in *.
  destruct (hasPermission (state (host s))) as [[|]|];
    destruct (showCamera (state (host s))); simpl;
    repeat split; try reflexivity; try (intros; discriminate);
    try (specialize (Hcam eq_refl); discriminate).
Qed.

Lemma mounted_components_witness :
  let s := session_after grantedRun in
  reachable s /\
  mounted "WebView" (App (state (host s))) = true /\
  mounted "Camera" (App (state (host s))) = true.
Proof.
  cbv zeta.
  assert (Hreach : reachable (session_after grantedRun))
    by (exists grantedRun; vm_compute; reflexivity).
  split; [exact Hreach|].
  destruct (mounted_components (session_after grantedRun) Hreach)
    as (Hweb & Hcam & _).
  split; [exact Hweb | exact Hcam].
Defined.

(** X5.  Until permission is granted, the only event that can happen is the
    settlement of the permission request: no message is delivered, and
    the page is not even loaded. *)
Theorem only_settlement_before_grant (s : Session) (e : Event) (s' : Session) :
  permission s <> Some true ->
  step s e = Next s' ->
  exists o, e = PermissionSettled o.
Proof.
  intros Hp Hstep. destruct (callback_of e) as [c|] eqn:Hc.
  - destruct (step_callback _ _ _ _ Hc Hstep) as [Hw _].
    apply wired_granted in Hw. contradiction.
  - destruct e; try discriminate. eauto.
Qed.

Lemma only_settlement_before_grant_witness :
  let e := PermissionSettled (Fulfilled (mkResponse (js "granted"))) in
  permission initialSession <> Some true /\
  step initialSession e = Next (sessionWith (Some true) false Settled) /\
  exists o, e = PermissionSettled o.
Proof.
  cbv zeta. split; [discriminate|]. split; [vm_compute; reflexivity|].
  apply (only_settlement_before_grant initialSession _
           (sessionWith (Some true) false Settled)).
  - discriminate.
  - vm_compute; reflexivity.
Defined.

(** X6.  When the request is fulfilled in a reachable session, [App] returns
    the main view with the camera hidden if the status is 'granted' and
    the denial view for every other status. *)
Theorem view_after_fulfilment (s : Session) (r : PermissionResponse)
        (s' : Session) :
  reachable s ->
  step s (PermissionSettled (Fulfilled r)) = Next s' ->
  App (state (host s')) =
  if jsstring_eqb (status r) (js "granted") then mainView false
  else denialView.
Proof.
  intros Hreach Hstep.
  destruct (session_inv_reachable s Hreach) as [Hknown Hcam].
  destruct (step_settled _ _ _ Hstep) as [Hpend ->].
  assert (Hhidden : showCamera (state (host s)) = false).
  { destruct (showCamera (state (host s))) eqn:E; [|reflexivity].
    assert (Hp : permission s = Some true) by (apply Hcam; exact E).
    assert (request s = Settled) by (apply Hknown; congruence).
    congruence. }
  unfold App; simpl. rewrite Hhidden.
  destruct (jsstring_eqb (status r) (js "granted")); reflexivity.
Qed.

Lemma view_after_fulfilment_witness :
  let r := mkResponse (js "undetermined") in
  reachable initialSession /\
  step initialSession (PermissionSettled (Fulfilled r)) =
    Next (sessionWith (Some false) false Settled) /\
  App (state (host (sessionWith (Some false) false Settled))) = denialView.
Proof.
  cbv zeta.
  assert (Hreach : reachable initialSession) by (exists []; reflexivity).
  split; [exact Hreach|]. split; [vm_compute; reflexivity|].
  apply (view_after_fulfilment initialSession
           (mkResponse (js "undetermined"))
           (sessionWith (Some false) false Settled) Hreach).
  vm_compute; reflexivity.
Defined.

(** ** The last command wins *)

Lemma camera_after_command (m : jsstring) (b : bool) :
  camera_after m b = match command m with Some c => c | None => b end.
Proof.
  unfold camera_after, command.
  destruct (has_action m (js "SHOW_CAMERA")); [reflexivity|].
  destruct (has_action m (js "HIDE_CAMERA")); reflexivity.
Qed.

Lemma fold_last_command (posts : list jsstring) (b : bool) :
  fold_left (fun x m => camera_after m x) posts b =
  match last_command posts with Some c => c | None => b end.
Proof.
  induction posts as [|m posts IH] using rev_ind; [reflexivity|].
  rewrite fold_left_app; simpl. rewrite IH, camera_after_command.
  unfold last_command. rewrite rev_app_distr; simpl.
  destruct (command m) as [c|] eqn:E.
  - replace (commands m) with true by (unfold commands; now rewrite E).
    now rewrite E.
  - replace (commands m) with false by (unfold commands; now rewrite E).
    reflexivity.
Qed.

(** X7.  With permission granted, any list of posted texts is delivered in
    full, and [showCamera] ends as the last SHOW_CAMERA or HIDE_CAMERA
    message among them says; if there is none it keeps its value.
    Nothing is coalesced and no earlier message matters. *)
Theorem last_command_wins (posts : list jsstring) (s : Session) :
  permission s = Some true ->
  exists s',
    run s (messages posts) = Some s' /\
    camera s' = match last_command posts with
                | Some c => c
                | None => camera s
                end /\
    permission s' = Some true.
Proof.
  intros Hp.
  destruct (run_messages posts s Hp) as (s' & Hrun & Hp' & _ & Hc).
  exists s'. split; [exact Hrun|]. split; [|exact Hp'].
  now rewrite Hc, fold_last_command.
Qed.

Lemma last_command_wins_witness :
  let posts := [showMessage; js "hello"; hideMessage;
                jsq "{'action':'BUTTON_CLICKED','button':'screen_5'}"] in
  permission grantedSession = Some true /\
  last_command posts = Some false /\
  exists s',
    run grantedSession (messages posts) = Some s' /\
    camera s' = match last_command posts with
                | Some c => c
                | None => camera grantedSession
                end /\
    permission s' = Some true.
Proof.
  cbv zeta. split; [reflexivity|]. split; [vm_compute; reflexivity|].
  apply (last_command_wins
           [showMessage; js "hello"; hideMessage;
            jsq "{'action':'BUTTON_CLICKED','button':'screen_5'}"]
           grantedSession).
  reflexivity.
Defined.

(** ** One navigation, line by line *)

Lemma parse_console (n : Z) :
  JSON_parse (consoleMessage n) =
  Some (object_of [(js "type", js "CONSOLE_LOG");
                   (js "message",
                    js "Going to screen:" ++ js " " ++ Number_toString n)]).
Proof.
  rewrite <- stringify_console.
  rewrite JsonFacts.parse_stringify; [reflexivity|].
  cbn [plain_properties forallb fst snd join ToString].
  now rewrite !plain_app, Number_toString_plain.
Qed.

Lemma parse_button (n : Z) :
  JSON_parse (buttonMessage n) =
  Some (object_of [(js "action", js "BUTTON_CLICKED");
                   (js "button", screenLabel n)]).
Proof.
  rewrite <- stringify_button.
  rewrite JsonFacts.parse_stringify; [reflexivity|].
  cbn [plain_properties forallb fst snd].
  now rewrite !plain_app, Number_toString_plain.
Qed.

Lemma handle_console (n : Z) (h : Host) :
  handleWebViewMessage (event_of (consoleMessage n)) h =
  (inl tt, mkHost (state h) (console h ++ [received (consoleMessage n)])).
Proof.
  rewrite handle_eval; cbv zeta. simpl data. now rewrite parse_console.
Qed.

Lemma handle_button (n : Z) (h : Host) :
  handleWebViewMessage (event_of (buttonMessage n)) h =
  (inl tt,
   mkHost (state h)
          (console h ++ [received (buttonMessage n);
                         logged "Button clicked:" [JString (screenLabel n)]])).
Proof.
  rewrite handle_eval; cbv zeta. simpl data. rewrite parse_button.
  change (get_property (object_of _) (js "action"))
    with (Some (JString (js "BUTTON_CLICKED"))).
  change (get_property (object_of _) (js "button"))
    with (Some (JString (screenLabel n))).
  cbv match.
  change (strict_eq_string (JString (js "BUTTON_CLICKED")) (js "SHOW_CAMERA"))
    with false.
  change (strict_eq_string (JString (js "BUTTON_CLICKED")) (js "HIDE_CAMERA"))
    with false.
  change (strict_eq_string (JString (js "BUTTON_CLICKED")) (js "BUTTON_CLICKED"))
    with true.
  cbv match. now rewrite <- app_assoc.
Qed.

Lemma handle_camera (n : Z) (h : Host) :
  handleWebViewMessage (event_of (cameraMessage n)) h =
  (inl tt,
   mkHost (mkAppState (hasPermission (state h)) (n =? 5)%Z)
          (console h ++ [received (cameraMessage n); cameraLine (n =? 5)%Z])).
Proof.
  rewrite handle_eval; cbv zeta. simpl data. unfold cameraMessage.
  destruct (n =? 5)%Z.
  - replace (JSON_parse showMessage)
      with (Some (JObject [(js "action", JString (js "SHOW_CAMERA"))]))
      by (vm_compute; reflexivity).
    change (get_property _ (js "action"))
      with (Some (JString (js "SHOW_CAMERA"))).
    cbv match.
    change (strict_eq_string (JString (js "SHOW_CAMERA")) (js "SHOW_CAMERA"))
      with true.
    cbv match. now rewrite <- app_assoc.
  - replace (JSON_parse hideMessage)
      with (Some (JObject [(js "action", JString (js "HIDE_CAMERA"))]))
      by (vm_compute; reflexivity).
    change (get_property _ (js "action"))
      with (Some (JString (js "HIDE_CAMERA"))).
    cbv match.
    change (strict_eq_string (JString (js "HIDE_CAMERA")) (js "SHOW_CAMERA"))
      with false.
    change (strict_eq_string (JString (js "HIDE_CAMERA")) (js "HIDE_CAMERA"))
      with true.
    cbv match. now rewrite <- app_assoc.
Qed.

(** The host after the three texts of one navigation. *)
Lemma run_screenMessages (n : Z) (s : Session) :
  permission s = Some true ->
  run s (messages (screenMessages n)) =
  Some (mkSession (mkHost (mkAppState (Some true) (n =? 5)%Z)
                          (console (host s) ++ hostLines n))
                  (request s)).
Proof.
  intros Hp. unfold screenMessages, messages; cbn [map run].
  rewrite step_message by exact Hp.
  change (mkEvent (mkNativeEvent ?m)) with (event_of m).
  rewrite handle_console; cbn [snd].
  rewrite step_message by exact Hp.
  rewrite handle_button; cbn [snd host request state console].
  rewrite step_message by exact Hp.
  rewrite handle_camera; cbn [snd host request state console hasPermission].
  unfold permission in Hp. rewrite Hp.
  unfold hostLines. rewrite <- !app_assoc. reflexivity.
Qed.

(** X8.  For a safe-integer screen index [n] and a host with permission
    granted: the texts that one call [goToScreen(n)] posts are all
    delivered; the host logs each of them as received, logs the button
    [screen_<n>] exactly as the page built it, logs the camera request,
    and ends with [showCamera] true if [n] is 5 and false otherwise. *)
Theorem goToScreen_host_trace (n : Z) (s : Session) :
  isSafeInteger n ->
  permission s = Some true ->
  run s (messages (posted (snd (goToScreen GUndefined n freshPage)))) =
  Some (mkSession (mkHost (mkAppState (Some true) (n =? 5)%Z)
                          (console (host s) ++ hostLines n))
                  (request s)).
Proof.
  intros _ Hp. rewrite goToScreen_eval. cbv zeta. simpl posted.
  now apply run_screenMessages.
Qed.

Lemma goToScreen_host_trace_witness :
  isSafeInteger 2 /\
  permission (sessionWith (Some true) true Settled) = Some true /\
  run (sessionWith (Some true) true Settled)
      (messages (posted (snd (goToScreen GUndefined 2 freshPage)))) =
  Some (mkSession
          (mkHost (mkAppState (Some true) false)
                  [received (jsq "{'type':'CONSOLE_LOG','message':'Going to screen: 2'}");
                   received (jsq "{'action':'BUTTON_CLICKED','button':'screen_2'}");
                   logged "Button clicked:" [JString (js "screen_2")];
                   received hideMessage;
                   logged "Hide camera requested" []])
          Settled).
Proof.
  split; [unfold isSafeInteger; lia|]. split; [reflexivity|].
  apply (goToScreen_host_trace 2 (sessionWith (Some true) true Settled)).
  - unfold isSafeInteger; lia.
  - reflexivity.
Defined.

(** ** A sequence of navigations *)

Lemma visit_posted {S : Type} (original : Global S) (ns : list Z)
      (p : Page S) :
  quiet original ->
  exists p',
    visit original ns p = (inl tt, p') /\
    posted p' = posted p ++ flat_map screenMessages ns.
Proof.
  intros Hq. revert p. induction ns as [|n ns IH]; intros p; simpl.
  - exists p. split; [reflexivity | now rewrite app_nil_r].
  - unfold bind. rewrite goToScreen_eval. cbv zeta.
    set (p1 := mkPage _ _ _).
    assert (Hcall : exists p2,
               match original with
               | GFunction f => f n p1
               | _ => (inl tt, p1)
               end = (inl tt, p2) /\ posted p2 = posted p1).
    { destruct original as [|f|]; try (exists p1; split; reflexivity).
      apply (Hq n p1). }
    destruct Hcall as (p2 & Hcall & Hposted).
    replace (match original with
             | GFunction f => f n p1
             | _ => (inl tt, p1)
             end) with (@inl unit Exn tt, p2)
      by (symmetry; destruct original; exact Hcall).
    destruct (IH p2) as (p' & Hrest & Hposted').
    exists p'. split; [exact Hrest|].
    rewrite Hposted', Hposted. subst p1. simpl posted.
    unfold screenMessages. now rewrite <- app_assoc.
Qed.

Lemma run_visits (ns : list Z) (s : Session) :
  permission s = Some true ->
  exists s',
    run s (messages (flat_map screenMessages ns)) = Some s' /\
    permission s' = Some true /\
    request s' = request s /\
    camera s' = match ns with
                | [] => camera s
                | _ :: _ => (last ns 0 =? 5)%Z
                end.
Proof.
  revert s. induction ns as [|n ns IH]; intros s Hp.
  - exists s. repeat split; assumption.
  - cbn [flat_map]. unfold messages. rewrite map_app.
    fold (messages (screenMessages n)).
    fold (messages (flat_map screenMessages ns)).
    assert (Hsplit : forall a b x,
               run x (a ++ b) = match run x a with
                                | Some y => run y b
                                | None => None
                                end).
    { clear. induction a as [|e a IHa]; intros b x; simpl; [reflexivity|].
      destruct (step x e); auto. }
    rewrite Hsplit, (run_screenMessages n s Hp).
    destruct (IH (mkSession (mkHost (mkAppState (Some true) (n =? 5)%Z)
                                    (console (host s) ++ hostLines n))
                            (request s)) eq_refl)
      as (s' & Hrun & Hp' & Hr & Hc).
    exists s'. split; [exact Hrun|]. split; [exact Hp'|].
    split; [exact Hr|]. rewrite Hc.
    destruct ns as [|n' ns']; reflexivity.
Qed.

(** X9.  The page navigates through the screens [ns], one call of the wrapper
    after the other, over an original function that posts nothing itself
    (or over none).  Every call returns; the texts posted are those of
    each call in order; and once a host with permission granted has
    received them, [showCamera] says whether the last screen visited is
    screen 5. *)
Theorem navigation_sequence {S : Type} (original : Global S) (ns : list Z)
        (p : Page S) (s : Session) :
  Forall isSafeInteger ns ->
  quiet original ->
  ns <> [] ->
  permission s = Some true ->
  exists p' s',
    visit original ns p = (inl tt, p') /\
    posted p' = posted p ++ flat_map screenMessages ns /\
    run s (messages (flat_map screenMessages ns)) = Some s' /\
    camera s' = (last ns 0 =? 5)%Z.
Proof.
  intros _ Hq Hne Hp.
  destruct (visit_posted original ns p Hq) as (p' & Hvisit & Hposted).
  destruct (run_visits ns s Hp) as (s' & Hrun & _ & _ & Hc).
  exists p', s'. repeat split; try assumption.
  destruct ns; [now elim Hne | exact Hc].
Qed.

Lemma navigation_sequence_witness :
  let ns := [1; 5; 3]%Z in
  Forall isSafeInteger ns /\
  quiet (@GUndefined unit) /\
  ns <> [] /\
  permission grantedSession = Some true /\
  exists p' s',
    visit GUndefined ns freshPage = (inl tt, p') /\
    posted p' = posted freshPage ++ flat_map screenMessages ns /\
    run grantedSession (messages (flat_map screenMessages ns)) = Some s' /\
    camera s' = (last ns 0 =? 5)%Z.
Proof.
  cbv zeta.
  assert (Hsafe : Forall isSafeInteger [1; 5; 3]%Z)
    by (repeat constructor; unfold isSafeInteger; lia).
  split; [exact Hsafe|]. split; [exact I|]. split; [discriminate|].
  split; [reflexivity|].
  apply (navigation_sequence GUndefined [1; 5; 3]%Z freshPage grantedSession
           Hsafe I); [discriminate | reflexivity].
Defined.

(** * Further properties of the bridge *)

(** ** Every string survives [JSON.stringify] and [JSON.parse] *)

Module RoundTrip.
Import Json.

Ltac decide_test :=
  repeat match goal with
         | |- context [?x =? ?y] =>
             first [ replace (x =? y) with false
                       by (symmetry; apply N.eqb_neq; lia)
                   | replace (x =? y) with true
                       by (symmetry; apply N.eqb_eq; lia) ]
         | |- context [?x <? ?y] =>
             first [ replace (x <? y) with false
                       by (symmetry; apply N.ltb_ge; lia)
                   | replace (x <? y) with true
                       by (symmetry; apply N.ltb_lt; lia) ]
         | |- context [?x <=? ?y] =>
             first [ replace (x <=? y) with false
                       by (symmetry; apply N.leb_gt; lia)
                   | replace (x <=? y) with true
                       by (symmetry; apply N.leb_le; lia) ]
         end.

Lemma hex_value_digit (d : N) :
  d < 16 -> hex_value (Stringify.hex_digit d) = Some d.
Proof.
  intros Hd. unfold Stringify.hex_digit, hex_value, is_digit.
  destruct (N.ltb_spec d 10); decide_test; cbv [andb]; f_equal; lia.
Qed.

Lemma hex4_escape (c : N) :
  c < 65536 ->
  hex4 (Stringify.hex_digit (c / 4096 mod 16))
       (Stringify.hex_digit (c / 256 mod 16))
       (Stringify.hex_digit (c / 16 mod 16))
       (Stringify.hex_digit (c mod 16)) = Some c.
Proof.
  intros Hc. unfold hex4.
  rewrite !hex_value_digit by (apply N.mod_lt; lia).
  f_equal.
  pose proof (N.div_mod c 16 ltac:(lia)) as H0.
  pose proof (N.div_mod (c / 16) 16 ltac:(lia)) as H1.
  pose proof (N.div_mod (c / 16 / 16) 16 ltac:(lia)) as H2.
  pose proof (N.mod_lt c 16 ltac:(lia)).
  pose proof (N.mod_lt (c / 16) 16 ltac:(lia)).
  pose proof (N.mod_lt (c / 16 / 16) 16 ltac:(lia)).
  replace (c / 256) with (c / 16 / 16)
    by (rewrite N.Div0.div_div; reflexivity).
  replace (c / 4096) with (c / 16 / 16 / 16)
    by (rewrite !N.Div0.div_div; reflexivity).
  assert (Hsmall : c / 16 / 16 / 16 < 16).
  { rewrite !N.Div0.div_div. apply N.Div0.div_lt_upper_bound. simpl; lia. }
  rewrite (N.mod_small _ _ Hsmall).
  pose proof (N.div_mod (c / 16 / 16) 16 ltac:(lia)).
  lia.
Qed.

Lemma lex_unit (c : N) (t : jsstring) :
  32 <= c -> c <> 34 -> c <> 92 ->
  lex_string (c :: t) = cons_result c (lex_string t).
Proof.
  intros H32 H34 H92. cbn [lex_string]. decide_test. reflexivity.
Qed.

Lemma lex_escape (e x : N) (t : jsstring) :
  simple_escape e = Some x -> e <> 117 ->
  lex_string (92 :: e :: t) = cons_result x (lex_string t).
Proof.
  intros He H117. cbn [lex_string]. decide_test. rewrite He.
  unfold cons_result. destruct (lex_string t) as [[cs rest]|]; reflexivity.
Qed.

Lemma lex_unicode (c : N) (t : jsstring) :
  c < 65536 ->
  lex_string (Stringify.unicode_escape c ++ t) = cons_result c (lex_string t).
Proof.
  intros Hc. unfold Stringify.unicode_escape. cbn [app lex_string].
  decide_test. rewrite hex4_escape by exact Hc.
  unfold cons_result. destruct (lex_string t) as [[cs rest]|]; reflexivity.
Qed.

Lemma lex_quote_unit (c : N) (t : jsstring) :
  c < 65536 ->
  lex_string (Stringify.quote_unit c ++ t) = cons_result c (lex_string t).
Proof.
  intros Hc. unfold Stringify.quote_unit.
  destruct (N.eqb_spec c 8) as [->|]; [now apply lex_escape|].
  destruct (N.eqb_spec c 9) as [->|]; [now apply lex_escape|].
  destruct (N.eqb_spec c 10) as [->|]; [now apply lex_escape|].
  destruct (N.eqb_spec c 12) as [->|]; [now apply lex_escape|].
  destruct (N.eqb_spec c 13) as [->|]; [now apply lex_escape|].
  destruct (N.eqb_spec c 34) as [->|]; [now apply lex_escape|].
  destruct (N.eqb_spec c 92) as [->|]; [now apply lex_escape|].
  destruct (N.ltb_spec c 32); [now apply lex_unicode|].
  now apply lex_unit.
Qed.

(** The string lexer reads back what [QuoteJSONString] wrote, for every
    string of code units. *)
Lemma lex_quote_units (s rest : jsstring) :
  wellformed s = true ->
  lex_string (Stringify.quote_units s ++ 34 :: rest) = Some (s, rest).
Proof.
  remember (List.length s) as n eqn:Hn. revert s Hn.
  induction n as [n IH] using lt_wf_ind. intros s Hn Hwf.
  destruct s as [|c r]; [reflexivity|].
  cbn [wellformed forallb] in Hwf. apply andb_true_iff in Hwf as [Hc Hr].
  apply N.ltb_lt in Hc. fold (wellformed r) in Hr.
  assert (IHr : lex_string (Stringify.quote_units r ++ 34 :: rest)
                = Some (r, rest))
    by (apply (IH (List.length r)); subst; simpl; auto; lia).
  cbn [Stringify.quote_units].
  destruct (Stringify.is_lead c) eqn:Hlead.
  - destruct r as [|d r'].
    + rewrite lex_unicode by exact Hc. reflexivity.
    + destruct (Stringify.is_trail d) eqn:Htrail.
      * cbn [wellformed forallb] in Hr. apply andb_true_iff in Hr as [Hd Hr'].
        fold (wellformed r') in Hr'.
        unfold Stringify.is_lead in Hlead. unfold Stringify.is_trail in Htrail.
        apply andb_true_iff in Hlead as [Hl1 Hl2].
        apply andb_true_iff in Htrail as [Ht1 Ht2].
        apply N.leb_le in Hl1, Hl2, Ht1, Ht2.
        change ((c :: d :: Stringify.quote_units r') ++ 34 :: rest)
          with (c :: d :: (Stringify.quote_units r' ++ 34 :: rest)).
        rewrite lex_unit by lia. rewrite lex_unit by lia.
        rewrite (IH (List.length r')); subst; simpl; auto; lia.
      * rewrite <- app_assoc, lex_unicode by exact Hc.
        now rewrite IHr.
  - destruct (Stringify.is_trail c).
    + rewrite <- app_assoc, lex_unicode by exact Hc. now rewrite IHr.
    + rewrite <- app_assoc, lex_quote_unit by exact Hc. now rewrite IHr.
Qed.

Lemma value_quoted (fuel : nat) (s rest : jsstring) :
  wellformed s = true ->
  (0 < fuel)%nat ->
  value fuel (Stringify.quote s ++ rest) = Parsed (JString s) rest.
Proof.
  intros Hs Hfuel. destruct fuel as [|fuel]; [lia|].
  unfold Stringify.quote.
  change ((34 :: Stringify.quote_units s ++ [34]) ++ rest)
    with (34 :: (Stringify.quote_units s ++ [34]) ++ rest).
  rewrite <- app_assoc. cbn [app value].
  change (skip_ws (34 :: ?x)) with (34 :: x).
  cbv match. change (34 =? 123) with false. change (34 =? 91) with false.
  change (34 =? 34) with true. cbv match.
  now rewrite lex_quote_units.
Qed.

Lemma properties_quoted (k v : jsstring) (ps : list (jsstring * jsstring))
      (rest : jsstring) :
  Stringify.properties ((k, v) :: ps) ++ 125 :: rest =
  34 :: Stringify.quote_units k ++ 34 :: 58 :: Stringify.quote v ++
    match ps with
    | [] => 125 :: rest
    | _ :: _ => 44 :: Stringify.properties ps ++ 125 :: rest
    end.
Proof.
  destruct ps as [|[k' v'] ps']; cbn [Stringify.properties];
    unfold Stringify.quote at 1; simpl;
    repeat (rewrite <- app_assoc; simpl); reflexivity.
Qed.

Lemma members_quoted (ps : list (jsstring * jsstring)) :
  forall fuel k v rest,
    wellformed_properties ((k, v) :: ps) = true ->
    (S (List.length ps) < fuel)%nat ->
    members fuel (Stringify.properties ((k, v) :: ps) ++ 125 :: rest) =
    Parsed (map (fun p => (fst p, JString (snd p))) ((k, v) :: ps)) rest.
Proof.
  induction ps as [|[k' v'] ps IH]; intros fuel k v rest Hwf Hfuel;
    destruct fuel as [|fuel]; try (simpl in Hfuel; lia);
    cbn [wellformed_properties forallb fst snd] in Hwf;
    apply andb_true_iff in Hwf as [Hkv Hps];
    apply andb_true_iff in Hkv as [Hk Hv];
    rewrite properties_quoted;
    cbn [members]; change (skip_ws (34 :: ?x)) with (34 :: x);
    cbv match; change (34 =? 34) with true; cbv match;
    rewrite lex_quote_units by assumption;
    change (skip_ws (58 :: ?x)) with (58 :: x);
    cbv match; change (58 =? 58) with true; cbv match;
    rewrite value_quoted by (assumption || (simpl in Hfuel; lia)).
  - reflexivity.
  - change (skip_ws (44 :: ?x)) with (44 :: x).
    cbv match. change (44 =? 44) with true. cbv match.
    rewrite (IH fuel k' v' rest Hps) by (simpl in Hfuel |- *; lia).
    reflexivity.
Qed.

Lemma parse_stringify_any (ps : list (jsstring * jsstring)) :
  wellformed_properties ps = true ->
  JSON_parse (JSON_stringify ps) = Some (object_of ps).
Proof.
  intros Hwf. destruct ps as [|[k v] ps]; [reflexivity|].
  unfold JSON_parse, JSON_stringify, fuel_for.
  pose proof (JsonFacts.properties_length ((k, v) :: ps)) as Hlen.
  assert (Hshape : exists rest,
             Stringify.properties ((k, v) :: ps) ++ [125] = 34 :: rest)
    by (rewrite properties_quoted; eauto).
  remember (Stringify.properties ((k, v) :: ps)) as text eqn:Htext.
  replace (2 * List.length (123%N :: text ++ [125%N]) + 1)%nat
    with (S (2 * List.length text + 4))%nat
    by (simpl; rewrite length_app; simpl; lia).
  destruct Hshape as [rest Hshape].
  cbn [value]. change (skip_ws (123 :: ?x)) with (123 :: x).
  cbv match. change (123 =? 123) with true. cbv match.
  rewrite Hshape. change (skip_ws (34 :: rest)) with (34 :: rest).
  cbv match. change (34 =? 125) with false. cbv match.
  rewrite <- Hshape. subst text.
  rewrite members_quoted by (simpl in *; (assumption || lia)).
  reflexivity.
Qed.

End RoundTrip.

(** X10.  For every well-formed text the page logs and every well-formed
    button label, the host's [JSON.parse] returns the very object the
    script passed to [JSON.stringify]: quotation marks, reverse solidi,
    control characters and lone surrogates in the text are escaped on the
    way out and read back on the way in. *)
Theorem bridge_round_trip (message label : jsstring) :
  wellformed message = true ->
  wellformed label = true ->
  JSON_parse (JSON_stringify [(js "type", js "CONSOLE_LOG");
                              (js "message", message)]) =
    Some (JObject [(js "type", JString (js "CONSOLE_LOG"));
                   (js "message", JString message)]) /\
  JSON_parse (JSON_stringify [(js "action", js "BUTTON_CLICKED");
                              (js "button", label)]) =
    Some (JObject [(js "action", JString (js "BUTTON_CLICKED"));
                   (js "button", JString label)]).
Proof.
  intros Hm Hl. split; rewrite RoundTrip.parse_stringify_any;
    try reflexivity; cbn [wellformed_properties forallb fst snd];
    rewrite ?Hm, ?Hl; reflexivity.
Qed.

Lemma bridge_round_trip_witness :
  let message := js "say " ++ [34; 92; 10; 55357; 56832; 56832; 7] in
  let label := jsq "screen_'5'" in
  wellformed message = true /\
  wellformed label = true /\
  JSON_stringify [(js "type", js "CONSOLE_LOG"); (js "message", message)] =
    jsq "{'type':'CONSOLE_LOG','message':'say \'\\\n" ++ [55357; 56832]
      ++ jsq "\ude00\u0007'}" /\
  JSON_parse (JSON_stringify [(js "type", js "CONSOLE_LOG");
                              (js "message", message)]) =
    Some (JObject [(js "type", JString (js "CONSOLE_LOG"));
                   (js "message", JString message)]).
Proof.
  cbv zeta. split; [reflexivity|]. split; [reflexivity|].
  split; [vm_compute; reflexivity|].
  apply (bridge_round_trip
           (js "say " ++ [34; 92; 10; 55357; 56832; 56832; 7])
           (jsq "screen_'5'")); reflexivity.
Defined.

(** ** Nothing the page logs can move the host *)

Lemma wellformed_app (a b : jsstring) :
  wellformed (a ++ b) = wellformed a && wellformed b.
Proof. apply forallb_app. Qed.

Lemma plain_wellformed (s : jsstring) : plain s = true -> wellformed s = true.
Proof.
  unfold plain, wellformed. rewrite !forallb_forall. intros H c Hc.
  specialize (H c Hc). apply JsonFacts.is_plain_spec in H.
  apply N.ltb_lt. lia.
Qed.

Lemma join_wellformed (args : list PageValue) (sep : jsstring) :
  forallb wellformed_value args = true ->
  wellformed sep = true ->
  wellformed (join args sep) = true.
Proof.
  intros Hargs Hsep.
  assert (Hto : forall v, wellformed_value v = true ->
                          wellformed (ToString v) = true).
  { intros [s|n]; simpl; [auto|].
    intros _. apply plain_wellformed, Number_toString_plain. }
  induction args as [|v rest IH]; [reflexivity|].
  cbn [forallb] in Hargs. apply andb_true_iff in Hargs as [Hv Hrest].
  destruct rest as [|w rest']; [now apply Hto|].
  change (join (v :: w :: rest') sep)
    with (ToString v ++ sep ++ join (w :: rest') sep).
  now rewrite !wellformed_app, Hto, Hsep, IH.
Qed.

Lemma handle_logMessage (args : list PageValue) (h : Host) :
  forallb wellformed_value args = true ->
  handleWebViewMessage (event_of (logMessage args)) h =
  (inl tt, mkHost (state h) (console h ++ [received (logMessage args)])).
Proof.
  intros Hargs. rewrite handle_eval; cbv zeta. simpl data.
  unfold logMessage at 1. rewrite RoundTrip.parse_stringify_any.
  - reflexivity.
  - cbn [wellformed_properties forallb fst snd].
    now rewrite join_wellformed.
Qed.

(** X11.  Whatever well-formed strings and integers the page passes to the
    overridden [console.log], the call posts one CONSOLE_LOG text and
    hands the arguments to the original [console.log]; and the host, on
    receiving that text, returns normally with its state as it was and
    one line, the receipt, added to its console.  No logged text is taken
    for a command. *)
Theorem console_log_is_inert {S : Type} (args : list PageValue)
        (p : Page S) (h : Host) :
  forallb wellformed_value args = true ->
  page_console_log args p =
    (inl tt, mkPage (posted p ++ [logMessage args])
                    (pageConsole p ++ [args]) (pageState p)) /\
  JSON_parse (logMessage args) =
    Some (JObject [(js "type", JString (js "CONSOLE_LOG"));
                   (js "message", JString (join args (js " ")))]) /\
  handleWebViewMessage (event_of (logMessage args)) h =
    (inl tt, mkHost (state h) (console h ++ [received (logMessage args)])).
Proof.
  intros Hargs. split; [reflexivity|]. split.
  - unfold logMessage. rewrite RoundTrip.parse_stringify_any; [reflexivity|].
    cbn [wellformed_properties forallb fst snd].
    now rewrite join_wellformed.
  - now apply handle_logMessage.
Qed.

Lemma console_log_is_inert_witness :
  let args := [VString (jsq "{'action':'SHOW_CAMERA'}"); VNumber 5] in
  let m := jsq "{'type':'CONSOLE_LOG','message':'{\'action\':\'SHOW_CAMERA\'} 5'}" in
  forallb wellformed_value args = true /\
  logMessage args = m /\
  handleWebViewMessage (event_of m) (host grantedSession) =
    (inl tt, mkHost (state (host grantedSession)) [received m]).
Proof.
  cbv zeta. split; [reflexivity|]. split; [vm_compute; reflexivity|].
  apply (console_log_is_inert
           [VString (jsq "{'action':'SHOW_CAMERA'}"); VNumber 5]
           freshPage (host grantedSession)).
  reflexivity.
Defined.

(** * The touch listeners *)

Lemma nth_error_update (i j : nat) (f : Node -> Node) (doc : Document) :
  nth_error (update i f doc) j =
  if Nat.eqb j i then option_map f (nth_error doc j) else nth_error doc j.
Proof.
  revert i j. induction doc as [|nd doc IH]; intros i j.
  - destruct i, j; simpl; try reflexivity; now destruct (Nat.eqb j i).
  - destruct i as [|i], j as [|j]; simpl; try reflexivity. apply IH.
Qed.

Lemma update_length (i : nat) (f : Node -> Node) (doc : Document) :
  List.length (update i f doc) = List.length doc.
Proof.
  revert i. induction doc as [|nd doc IH]; intros [|i]; simpl; auto.
Qed.

Lemma times_listener (v line : jsstring) (i n : nat) (p : Page Document) :
  exists p',
    times n (feedbackListener v line i) p = (inl tt, p') /\
    posted p' = posted p ++ repeat (logMessage [VString line]) n /\
    forall j,
      nth_error (pageState p') j =
      option_map (fun nd => if Nat.eqb j i && negb (Nat.eqb n 0)
                            then with_opacity v nd else nd)
                 (nth_error (pageState p) j).
Proof.
  revert p. induction n as [|n IH]; intros p.
  - exists p. split; [reflexivity|]. split; [now rewrite app_nil_r|].
    intros j. rewrite andb_false_r. now destruct (nth_error (pageState p) j).
  - cbn [times]. unfold bind at 1.
    set (p1 := snd (feedbackListener v line i p)).
    assert (Hrun : feedbackListener v line i p = (inl tt, p1)) by reflexivity.
    assert (Hdoc : pageState p1 = update i (with_opacity v) (pageState p))
      by reflexivity.
    assert (Hpost : posted p1 = posted p ++ [logMessage [VString line]])
      by reflexivity.
    rewrite Hrun. destruct (IH p1) as (p' & Htimes & Hposted & Hnth).
    exists p'. split; [exact Htimes|]. split.
    { rewrite Hposted, Hpost, <- app_assoc. reflexivity. }
    intros j.
    rewrite Hnth, Hdoc, nth_error_update. simpl negb. rewrite andb_true_r.
    destruct (Nat.eqb j i); [|now destruct (Nat.eqb n 0)].
    destruct (nth_error (pageState p) j) as [nd|]; [|reflexivity].
    simpl. now destruct (Nat.eqb n 0).
Qed.

Lemma bubble_listener (v line : jsstring) (path : list nat)
      (p : Page Document) :
  exists p' k,
    bubble (feedbackListener v line) path p = (inl tt, p') /\
    posted p' = posted p ++ repeat (logMessage [VString line]) k /\
    forall j,
      nth_error (pageState p') j =
      option_map (touched v (on_path j path)) (nth_error (pageState p) j).
Proof.
  revert p. induction path as [|i up IH]; intros p.
  - exists p, 0%nat. split; [reflexivity|]. split; [now rewrite app_nil_r|].
    intros j. now destruct (nth_error (pageState p) j).
  - cbn [bubble]. unfold bind at 1.
    destruct (times_listener v line i (feedback_at i (pageState p)) p)
      as (p1 & Htimes & Hpost1 & Hnth1).
    rewrite Htimes. destruct (IH p1) as (p' & k & Hup & Hpost & Hnth).
    exists p', (feedback_at i (pageState p) + k)%nat.
    split; [exact Hup|]. split.
    { rewrite Hpost, Hpost1, <- app_assoc, repeat_app. reflexivity. }
    intros j.
    rewrite Hnth, Hnth1. cbn [on_path existsb].
    unfold feedback_at.
    destruct (Nat.eqb_spec j i) as [->|Hne].
    + destruct (nth_error (pageState p) i) as [nd|]; [|reflexivity].
      simpl. unfold touched.
      destruct (Nat.eqb (touchFeedback nd) 0) eqn:E; simpl;
        rewrite ?E, ?andb_false_r; simpl; [reflexivity|].
      now destruct (on_path i up).
    + destruct (nth_error (pageState p) j) as [nd|]; reflexivity.
Qed.

Lemma fresh_nth (doc : Document) (j : nat) (nd : Node) :
  fresh doc = true -> nth_error doc j = Some nd -> touchFeedback nd = 0%nat.
Proof.
  unfold fresh. rewrite forallb_forall. intros Hall Hj.
  apply nth_error_In in Hj. now apply Nat.eqb_eq, Hall.
Qed.

Lemma feedback_touched (v : jsstring) (on : bool) (nd : Node) :
  touchFeedback (touched v on nd) = touchFeedback nd.
Proof.
  unfold touched. now destruct (on && negb (Nat.eqb (touchFeedback nd) 0)).
Qed.

(** The whole cycle, step by step. *)
Lemma touch_cycle (g : Global Document) (path : list nat)
      (p0 : Page Document) :
  fresh (pageState p0) = true ->
  exists p1 pm p2 k k',
    onDOMContentLoaded g p0 = (inl (goToScreen g), p1) /\
    touchstart path p1 = (inl tt, pm) /\
    touchend path pm = (inl tt, p2) /\
    (forall j, nth_error (pageState pm) j =
               option_map (after_touch (js "0.7") (on_path j path))
                          (nth_error (pageState p0) j)) /\
    (forall j, nth_error (pageState p2) j =
               option_map (after_touch (js "1") (on_path j path))
                          (nth_error (pageState p0) j)) /\
    posted p2 =
      posted p0 ++ [domLoadedText] ++ repeat touchStartText k
        ++ [documentTouchText] ++ repeat touchEndText k'.
Proof.
  intros Hfresh.
  set (p1 := snd (onDOMContentLoaded g p0)).
  assert (Hinstall : onDOMContentLoaded g p0 = (inl (goToScreen g), p1))
    by reflexivity.
  assert (Hdoc1 : pageState p1 =
                  map (fun nd => if is_button nd then patch nd else nd)
                      (pageState p0)) by reflexivity.
  assert (Hpost1 : posted p1 = posted p0 ++ [domLoadedText]) by reflexivity.
  destruct (bubble_listener (js "0.7") (js "Touch start on button") path p1)
    as (pb & k & Hstart & Hpostb & Hnthb).
  set (pm := snd (page_console_log
                    [VString (js "Document touch detected")] pb)).
  assert (Hts : touchstart path p1 = (inl tt, pm)).
  { unfold touchstart, bind.
    change (bubble onTouchStart path p1)
      with (bubble (feedbackListener (js "0.7") (js "Touch start on button"))
                   path p1).
    now rewrite Hstart. }
  assert (Hdocm : pageState pm = pageState pb) by reflexivity.
  assert (Hpostm : posted pm = posted pb ++ [documentTouchText])
    by reflexivity.
  destruct (bubble_listener (js "1") (js "Touch end on button") path pm)
    as (p2 & k' & Hend & Hpost2 & Hnth2).
  exists p1, pm, p2, k, k'.
  split; [exact Hinstall|]. split; [exact Hts|]. split; [exact Hend|].
  assert (Hmid : forall j,
             nth_error (pageState pm) j =
             option_map (after_touch (js "0.7") (on_path j path))
                        (nth_error (pageState p0) j)).
  { intros j. rewrite Hdocm, Hnthb, Hdoc1, nth_error_map.
    destruct (nth_error (pageState p0) j) as [nd|] eqn:Hj; [|reflexivity].
    simpl. f_equal. pose proof (fresh_nth _ _ _ Hfresh Hj) as Hzero.
    unfold touched, after_touch.
    destruct (is_button nd); simpl; [|rewrite Hzero; simpl].
    - now destruct (on_path j path).
    - now rewrite andb_false_r. }
  split; [exact Hmid|]. split.
  - intros j. rewrite Hnth2, Hmid.
    destruct (nth_error (pageState p0) j) as [nd|] eqn:Hj; [|reflexivity].
    simpl. f_equal. pose proof (fresh_nth _ _ _ Hfresh Hj) as Hzero.
    unfold touched, after_touch.
    destruct (is_button nd); simpl.
    + now destruct (on_path j path).
    + rewrite Hzero; simpl. now rewrite andb_false_r.
  - rewrite Hpost2, Hpostm, Hpostb, Hpost1.
    rewrite <- !app_assoc. reflexivity.
Qed.

(** X12.  On a document the script has not touched before: its
    [DOMContentLoaded] listener, a [touchstart] and a [touchend] along a
    path all return normally.  While pressed, the buttons on the path,
    and only they, carry opacity 0.7; after the release they carry
    opacity 1, whatever opacity the page had given them.  Buttons off
    the path are patched and keep their opacity; elements that match
    none of the three classes are exactly as they were. *)
Theorem press_then_release (g : Global Document) (path : list nat)
        (p0 : Page Document) :
  fresh (pageState p0) = true ->
  exists p1 pm p2,
    onDOMContentLoaded g p0 = (inl (goToScreen g), p1) /\
    touchstart path p1 = (inl tt, pm) /\
    touchend path pm = (inl tt, p2) /\
    (forall j, nth_error (pageState pm) j =
               option_map (after_touch (js "0.7") (on_path j path))
                          (nth_error (pageState p0) j)) /\
    (forall j, nth_error (pageState p2) j =
               option_map (after_touch (js "1") (on_path j path))
                          (nth_error (pageState p0) j)).
Proof.
  intros Hfresh.
  destruct (touch_cycle g path p0 Hfresh)
    as (p1 & pm & p2 & k & k' & H1 & H2 & H3 & H4 & H5 & _).
  exists p1, pm, p2. auto.
Qed.

Lemma press_then_release_witness :
  let button := mkNode [js "card"; js "btn"]
                       (mkStyle None None None (Some (js "0.5"))) 0 in
  let title := mkNode [js "title"] (mkStyle None None None None) 0 in
  let p0 := mkPage [] [] [button; title] in
  fresh (pageState p0) = true /\
  exists p1 pm p2,
    onDOMContentLoaded GUndefined p0 = (inl (goToScreen GUndefined), p1) /\
    touchstart [0%nat] p1 = (inl tt, pm) /\
    touchend [0%nat] pm = (inl tt, p2) /\
    pageState pm =
      [mkNode [js "card"; js "btn"]
              (mkStyle (Some (js "none")) (Some (js "none")) (Some (js "none"))
                       (Some (js "0.7"))) 1;
       title] /\
    pageState p2 =
      [mkNode [js "card"; js "btn"]
              (mkStyle (Some (js "none")) (Some (js "none")) (Some (js "none"))
                       (Some (js "1"))) 1;
       title].
Proof.
  cbv zeta. split; [reflexivity|].
  destruct (press_then_release GUndefined [0%nat]
              (mkPage [] []
                 [mkNode [js "card"; js "btn"]
                         (mkStyle None None None (Some (js "0.5"))) 0;
                  mkNode [js "title"] (mkStyle None None None None) 0])
              eq_refl)
    as (p1 & pm & p2 & H1 & H2 & H3 & _).
  exists p1, pm, p2.
  split; [exact H1|]. split; [exact H2|]. split; [exact H3|].
  inversion H1; subst p1. vm_compute in H2. inversion H2; subst pm.
  vm_compute in H3. inversion H3; subst p2.
  split; vm_compute; reflexivity.
Defined.

(** ** Touch feedback never reaches the camera *)

Lemma logMessage_inert (args : list PageValue) :
  forallb wellformed_value args = true -> inert (logMessage args) = true.
Proof.
  intros Hargs. unfold inert, commands, command, has_action, action_of.
  unfold logMessage. rewrite RoundTrip.parse_stringify_any; [reflexivity|].
  cbn [wellformed_properties forallb fst snd].
  now rewrite join_wellformed.
Qed.

Lemma fold_inert (posts : list jsstring) (b : bool) :
  forallb inert posts = true ->
  fold_left (fun x m => camera_after m x) posts b = b.
Proof.
  revert b. induction posts as [|m posts IH]; intros b; simpl;
    [reflexivity|].
  rewrite andb_true_iff. intros [Hm Hrest].
  rewrite camera_after_command. unfold inert, commands in Hm.
  destruct (command m); [discriminate|]. now apply IH.
Qed.

Lemma forallb_repeat {A : Type} (f : A -> bool) (a : A) (n : nat) :
  f a = true -> forallb f (repeat a n) = true.
Proof. intros Ha. induction n; simpl; [reflexivity | now rewrite Ha]. Qed.

(** X13.  The script's [DOMContentLoaded] listener followed by a press and a
    release along any path posts only texts that command nothing: a
    host with permission granted receives every one of them and ends
    with its state, [showCamera] included, as it was. *)
Theorem touch_feedback_is_silent (g : Global Document) (path : list nat)
        (p0 : Page Document) (s : Session) :
  fresh (pageState p0) = true ->
  permission s = Some true ->
  exists p2 texts s',
    touchCycle g path p0 = (inl tt, p2) /\
    posted p2 = posted p0 ++ texts /\
    forallb inert texts = true /\
    run s (messages texts) = Some s' /\
    state (host s') = state (host s).
Proof.
  intros Hfresh Hp.
  destruct (touch_cycle g path p0 Hfresh)
    as (p1 & pm & p2 & k & k' & H1 & H2 & H3 & _ & _ & Hposted).
  set (texts := [domLoadedText] ++ repeat touchStartText k
                  ++ [documentTouchText] ++ repeat touchEndText k').
  assert (Hinert : forallb inert texts = true).
  { unfold texts. rewrite !forallb_app. cbn [forallb].
    rewrite !forallb_repeat by (apply logMessage_inert; reflexivity).
    unfold domLoadedText, documentTouchText.
    now rewrite !logMessage_inert by reflexivity. }
  destruct (run_messages texts s Hp) as (s' & Hrun & Hp' & _ & Hc).
  exists p2, texts, s'.
  split; [unfold touchCycle, bind; now rewrite H1, H2|].
  split; [exact Hposted|]. split; [exact Hinert|]. split; [exact Hrun|].
  rewrite fold_inert in Hc by exact Hinert.
  unfold permission, camera in *.
  destruct (state (host s')) as [hp' sc'], (state (host s)) as [hp sc].
  simpl in *. congruence.
Qed.

Lemma touch_feedback_is_silent_witness :
  let p0 := mkPage [] []
              [mkNode [js "goal-card"] (mkStyle None None None None) 0] in
  let s := sessionWith (Some true) true Settled in
  fresh (pageState p0) = true /\
  permission s = Some true /\
  exists p2 texts s',
    touchCycle GUndefined [0%nat] p0 = (inl tt, p2) /\
    posted p2 = posted p0 ++ texts /\
    forallb inert texts = true /\
    run s (messages texts) = Some s' /\
    state (host s') = state (host s).
Proof.
  cbv zeta. split; [reflexivity|]. split; [reflexivity|].
  apply (touch_feedback_is_silent GUndefined [0%nat]
           (mkPage [] []
              [mkNode [js "goal-card"] (mkStyle None None None None) 0])
           (sessionWith (Some true) true Settled)); reflexivity.
Defined.
